(** * ZEDv1_pltview: depth-gradient shader, argument handling and recording loop

    A shallow embedding of [ZEDv1_plotter/ZEDv1_pltview.py].

    - [Shader]: the colour computation of [POINTCLOUD_VERTEX_SHADER], with
      GLSL [float] read as exact rationals ([Q]).
    - [Py]: the few [str] operations the script uses.
    - [Args]: [parse_args] and the [__main__] guard, as a writer monad over
      the calls made on the SDK and on stdout, with Python exceptions and
      [exit()] as outcomes.
    - [Loop]: [main], its poll loop and the two process-local scalars. *)

From Stdlib Require Import QArith Qminmax Lqa ZArith Lia Bool List.
From Stdlib Require Import Ascii String DecimalString.
Import ListNotations.

(* ================================================================= *)
(** ** The vertex shader's colour gradient *)

Module Shader.

Local Open Scope Q_scope.

(** GLSL [vec3]. *)
Record vec3 : Set := Vec3 { red : Q; green : Q; blue : Q }.

(** Equality of colours up to the value of each channel ([Q] is a setoid). *)
Definition vec3_eq (u v : vec3) : Prop :=
  red u == red v /\ green u == green v /\ blue u == blue v.

Definition pure_red    : vec3 := Vec3 1 0 0.
Definition pure_yellow : vec3 := Vec3 1 1 0.
Definition pure_cyan   : vec3 := Vec3 0 1 1.
Definition pure_blue   : vec3 := Vec3 0 0 1.

(** GLSL [clamp(x, minVal, maxVal)] is [min(max(x, minVal), maxVal)]. *)
Definition clamp (x minVal maxVal : Q) : Q := Qmin (Qmax x minVal) maxVal.

Definition min_depth : Q := 0.5.
Definition max_depth : Q := 10.0.

(** [float normalized_depth = clamp((depth - min_depth) / (max_depth - min_depth), 0.0, 1.0);] *)
Definition normalized_depth (depth : Q) : Q :=
  clamp ((depth - min_depth) / (max_depth - min_depth)) 0.0 1.0.

(** The three branch bodies of the shader's [if] / [else if] / [else]. *)
Definition segment1 (nd : Q) : vec3 :=
  Vec3 1.0 (nd * 3.0) 0.0.

Definition segment2 (nd : Q) : vec3 :=
  let t := (nd - 0.33) * 3.0 in
  Vec3 (1.0 - t) 1.0 t.

Definition segment3 (nd : Q) : vec3 :=
  let t := (nd - 0.67) * 3.0 in
  Vec3 0.0 (1.0 - t) 1.0.

(** The branch selection on [normalized_depth]. *)
Definition gradient (nd : Q) : vec3 :=
  if Qlt_le_dec nd 0.33 then segment1 nd
  else if Qlt_le_dec nd 0.67 then segment2 nd
  else segment3 nd.

(** [color] as a function of [depth] (the shader obtains [depth] as the
    length of the vertex position; here it is the input). *)
Definition depth_color (depth : Q) : vec3 :=
  gradient (normalized_depth depth).

(** *** The gradient as the specification words it

    Linear interpolation between two colours over the interval [[a, b]]. *)
Definition lerp (c0 c1 : vec3) (a b nd : Q) : vec3 :=
  let s := (nd - a) / (b - a) in
  Vec3 (red c0 + s * (red c1 - red c0))
       (green c0 + s * (green c1 - green c0))
       (blue c0 + s * (blue c1 - blue c0)).

(** Red to yellow on [[0, 0.33)], yellow to cyan on [[0.33, 0.67)], cyan to
    blue on [[0.67, 1.0]]. *)
Definition gradient_reference (nd : Q) : vec3 :=
  if Qlt_le_dec nd 0.33 then lerp pure_red pure_yellow 0 0.33 nd
  else if Qlt_le_dec nd 0.67 then lerp pure_yellow pure_cyan 0.33 0.67 nd
  else lerp pure_cyan pure_blue 0.67 1.0 nd.

Definition depth_color_reference (depth : Q) : vec3 :=
  gradient_reference (normalized_depth depth).

End Shader.

(* ================================================================= *)
(** ** Python [str] operations used by the script *)

Module Py.

Local Open Scope string_scope.
Local Open Scope bool_scope.

(** [len(s)] *)
Definition len (s : string) : Z := Z.of_nat (String.length s).

(** [sub in s]: [sub] occurs in [s] as a contiguous run. *)
Fixpoint contains (sub s : string) : bool :=
  String.prefix sub s ||
  match s with
  | EmptyString => false
  | String _ s' => contains sub s'
  end.

(** [s.endswith(suffix)]: some tail of [s] is [suffix]. *)
Fixpoint endswith (s suffix : string) : bool :=
  String.eqb s suffix ||
  match s with
  | EmptyString => false
  | String _ s' => endswith s' suffix
  end.

(** [s.replace(c, '')] for a one-character [c]. *)
Fixpoint remove_char (c : ascii) (s : string) : string :=
  match s with
  | EmptyString => EmptyString
  | String a s' =>
      if Ascii.eqb a c then remove_char c s' else String a (remove_char c s')
  end.

(** [s.split(sep)] for a one-character [sep]; the result is never empty. *)
Fixpoint split (sep : ascii) (s : string) : list string :=
  match s with
  | EmptyString => [EmptyString]
  | String a s' =>
      if Ascii.eqb a sep then EmptyString :: split sep s'
      else match split sep s' with
           | part :: parts => String a part :: parts
           | [] => [String a EmptyString]
           end
  end.

Definition is_digit_char (a : ascii) : bool :=
  let n := nat_of_ascii a in (48 <=? n)%nat && (n <=? 57)%nat.

(** [all(p(a) for a in s)] *)
Fixpoint all_chars (p : ascii -> bool) (s : string) : bool :=
  match s with
  | EmptyString => true
  | String a s' => p a && all_chars p s'
  end.

Definition all_digits (s : string) : bool := all_chars is_digit_char s.

(** [s.isdigit()]: non-empty and every character a digit.  Strings are over
    8-bit characters here, so the digits are ['0'..'9']. *)
Definition isdigit (s : string) : bool :=
  negb (String.eqb s "") && all_digits s.

Fixpoint digits_value (acc : Z) (s : string) : Z :=
  match s with
  | EmptyString => acc
  | String a s' => digits_value (10 * acc + (Z.of_nat (nat_of_ascii a) - 48)) s'
  end.

(** Every character is a digit or a dot. *)
Definition digits_or_dots (s : string) : bool :=
  all_chars (fun a => is_digit_char a || Ascii.eqb a ".") s.

(** [int(s)]: [None] stands for [ValueError].  The one call site passes a
    piece of a string that holds digits, dots and colons only, cut at the
    colons ([port_text_digits_or_dots] below); on such text [int] accepts
    exactly the non-empty digit runs.  (Runs too long for the interpreter's
    digit limit are left out.) *)
Definition int (s : string) : option Z :=
  if isdigit s then Some (digits_value 0 s) else None.

(** [str(n)] for an [int]. *)
Definition str_of_int (n : Z) : string := NilZero.string_of_int (Z.to_int n).

(** [ord('r')] *)
Definition ord (a : ascii) : Z := Z.of_nat (nat_of_ascii a).

(** [os.path.join(a, b)] with the POSIX separator. *)
Definition path_join (a b : string) : string := a ++ "/" ++ b.

End Py.

(* ================================================================= *)
(** ** Calls on the outside world, exceptions, and the monad threading them *)

Module Sdk.

(** [sl.ERROR_CODE]: the script only tells [SUCCESS] from the rest; a failure
    carries the text the SDK prints for it. *)
Inductive ERROR_CODE : Set :=
| SUCCESS
| FAILURE (text : string).

Definition is_success (e : ERROR_CODE) : bool :=
  match e with SUCCESS => true | FAILURE _ => false end.

Definition str_of_error (e : ERROR_CODE) : string :=
  match e with SUCCESS => "SUCCESS"%string | FAILURE text => text end.

(** [sl.RESOLUTION]: the six members the script names; [AUTO] stands for the
    members it does not name. *)
Inductive RESOLUTION : Set :=
| HD2K | HD1200 | HD1080 | HD720 | SVGA | VGA | AUTO.

Inductive DEPTH_MODE : Set := ULTRA.
Inductive UNIT : Set := METER.
Inductive COORDINATE_SYSTEM : Set := RIGHT_HANDED_Y_UP.

(** Where [sl.InitParameters] takes its frames from: the wired camera unless
    [set_from_svo_file] or [set_from_stream] was called. *)
Inductive INPUT : Set :=
| LIVE
| SVO_FILE (path : string)
| STREAM (ip : string) (port : option Z).

Record InitParameters : Set := {
  depth_mode : DEPTH_MODE;
  coordinate_units : UNIT;
  coordinate_system : COORDINATE_SYSTEM;
  depth_minimum_distance : Q;
  depth_maximum_distance : Q;
  camera_resolution : RESOLUTION;
  input : INPUT
}.

Definition set_camera_resolution (r : RESOLUTION) (init : InitParameters)
  : InitParameters :=
  {| depth_mode := depth_mode init;
     coordinate_units := coordinate_units init;
     coordinate_system := coordinate_system init;
     depth_minimum_distance := depth_minimum_distance init;
     depth_maximum_distance := depth_maximum_distance init;
     camera_resolution := r;
     input := input init |}.

Definition set_input (i : INPUT) (init : InitParameters) : InitParameters :=
  {| depth_mode := depth_mode init;
     coordinate_units := coordinate_units init;
     coordinate_system := coordinate_system init;
     depth_minimum_distance := depth_minimum_distance init;
     depth_maximum_distance := depth_maximum_distance init;
     camera_resolution := camera_resolution init;
     input := i |}.

End Sdk.

Module Eff.

Import Sdk.

(** What the script does to the outside world, in program order. *)
Inductive event : Set :=
| Print (text ending : string)            (* print(text, end=ending) *)
| MakeDirs (path : string)                (* os.makedirs *)
| SetFromSvoFile (path : string)          (* init.set_from_svo_file *)
| SetFromStream (ip : string) (port : option Z)  (* init.set_from_stream *)
| CameraOpen (init : InitParameters)      (* zed.open *)
| SetupViewer                             (* setup_opengl_viewer, GLViewer(), init *)
| IsAvailable (answer : bool)             (* viewer.is_available() *)
| Grab (status : ERROR_CODE)              (* zed.grab() *)
| RetrieveMeasure (full_resolution : bool) (* zed.retrieve_measure *)
| UpdateData                              (* viewer.updateData *)
| WriteFile (filename : string) (status : ERROR_CODE)  (* Mat.write *)
| SetSaveData (v : bool)                  (* viewer.save_data = v *)
| SetKeyPressed (v : Z)                   (* viewer.key_pressed = v *)
| ViewerExit                              (* viewer.exit() *)
| CameraClose.                            (* zed.close() *)

Inductive exn : Set :=
| ValueError          (* raised by [int] *)
| SystemExit.         (* raised by [exit()] *)

Inductive outcome (A : Type) : Type :=
| Returned (a : A)
| Raised (e : exn).
Arguments Returned {A} a.
Arguments Raised {A} e.

(** A computation: the events it performed, then how it ended. *)
Definition M (A : Type) : Type := (list event * outcome A)%type.

Definition ret {A} (a : A) : M A := ([], Returned a).

Definition bind {A B} (m : M A) (k : A -> M B) : M B :=
  match m with
  | (log, Returned a) => let (log', r) := k a in (log ++ log', r)
  | (log, Raised e) => (log, Raised e)
  end.

Definition emit (e : event) : M unit := ([e], Returned tt).
Definition raise {A} (e : exn) : M A := ([], Raised e).

(** [print(text)] ends the line; [exit()] raises [SystemExit]. *)
Definition newline : string := String (ascii_of_nat 10) EmptyString.
Definition carriage_return : string := String (ascii_of_nat 13) EmptyString.
Definition print (text : string) : M unit := emit (Print text newline).
Definition exit {A} : M A := raise SystemExit.

Definition trace {A} (m : M A) : list event := fst m.
Definition result {A} (m : M A) : outcome A := snd m.

End Eff.

Declare Scope eff_scope.
Delimit Scope eff_scope with eff.
Notation "x <- m ;; k" := (Eff.bind m (fun x => k))
  (at level 61, m at next level, right associativity) : eff_scope.
Notation "m ;; k" := (Eff.bind m (fun _ => k))
  (at level 61, right associativity) : eff_scope.

(* ================================================================= *)
(** ** [parse_args] *)

Module Args.

Import Py Sdk Eff.
Local Open Scope string_scope.
Local Open Scope bool_scope.
Local Open Scope Z_scope.
Local Open Scope eff_scope.

(** The [argparse] namespace: three [str] options, each defaulting to [''] . *)
Record Options : Set := {
  input_svo_file : string;
  ip_address : string;
  resolution : string
}.

Definition with_input_svo_file (svo : string) (opt : Options) : Options :=
  {| input_svo_file := svo;
     ip_address := ip_address opt;
     resolution := resolution opt |}.

(** [ip_str.replace(':', '').replace('.', '').isdigit()] *)
Definition ip_digits_only (ip_str : string) : bool :=
  isdigit (remove_char "." (remove_char ":" ip_str)).

(** [parse_args(init, opt)]: the input-source [if]/[elif], then the
    resolution [if]/[elif] chain.  The mutated [init] is the value returned. *)
Definition parse_args (init : InitParameters) (opt : Options)
  : M InitParameters :=
  init <-
    (if (0 <? len (input_svo_file opt)) && endswith (input_svo_file opt) ".svo"
     then
       emit (SetFromSvoFile (input_svo_file opt)) ;;
       print ("[Sample] Using SVO File input: " ++ input_svo_file opt) ;;
       ret (set_input (SVO_FILE (input_svo_file opt)) init)
     else if 0 <? len (ip_address opt) then
       let ip_str := ip_address opt in
       if ip_digits_only ip_str
          && (Z.of_nat (List.length (split "." ip_str)) =? 4)
          && (Z.of_nat (List.length (split ":" ip_str)) =? 2)
       then
         match int (nth 1 (split ":" ip_str) "") with
         | None => raise ValueError
         | Some port =>
             let ip := nth 0 (split ":" ip_str) "" in
             emit (SetFromStream ip (Some port)) ;;
             print ("[Sample] Using Stream input, IP: " ++ " " ++ ip_str) ;;
             ret (set_input (STREAM ip (Some port)) init)
         end
       else if ip_digits_only ip_str
               && (Z.of_nat (List.length (split "." ip_str)) =? 4)
       then
         emit (SetFromStream ip_str None) ;;
         print ("[Sample] Using Stream input, IP: " ++ " " ++ ip_str) ;;
         ret (set_input (STREAM ip_str None) init)
       else
         print "Invalid IP format. Using live stream" ;;
         ret init
     else ret init) ;;
  if contains "HD2K" (resolution opt) then
    print "[Sample] Using Camera in resolution HD2K" ;;
    ret (set_camera_resolution HD2K init)
  else if contains "HD1200" (resolution opt) then
    print "[Sample] Using Camera in resolution HD1200" ;;
    ret (set_camera_resolution HD1200 init)
  else if contains "HD1080" (resolution opt) then
    print "[Sample] Using Camera in resolution HD1080" ;;
    ret (set_camera_resolution HD1080 init)
  else if contains "HD720" (resolution opt) then
    print "[Sample] Using Camera in resolution HD720" ;;
    ret (set_camera_resolution HD720 init)
  else if contains "SVGA" (resolution opt) then
    print "[Sample] Using Camera in resolution SVGA" ;;
    ret (set_camera_resolution SVGA init)
  else if contains "VGA" (resolution opt) then
    print "[Sample] Using Camera in resolution VGA" ;;
    ret (set_camera_resolution VGA init)
  else if 0 <? len (resolution opt) then
    print "[Sample] No valid resolution entered. Using default" ;;
    ret init
  else
    print "[Sample] Using default resolution" ;;
    ret init.

(** *** The two statements of [parse_args], taken apart for the proofs

    [parse_args] above is their sequence ([parse_args_blocks] below). *)
Definition input_block (init : InitParameters) (opt : Options)
  : M InitParameters :=
  if (0 <? len (input_svo_file opt)) && endswith (input_svo_file opt) ".svo"
  then
    emit (SetFromSvoFile (input_svo_file opt)) ;;
    print ("[Sample] Using SVO File input: " ++ input_svo_file opt) ;;
    ret (set_input (SVO_FILE (input_svo_file opt)) init)
  else if 0 <? len (ip_address opt) then
    let ip_str := ip_address opt in
    if ip_digits_only ip_str
       && (Z.of_nat (List.length (split "." ip_str)) =? 4)
       && (Z.of_nat (List.length (split ":" ip_str)) =? 2)
    then
      match int (nth 1 (split ":" ip_str) "") with
      | None => raise ValueError
      | Some port =>
          let ip := nth 0 (split ":" ip_str) "" in
          emit (SetFromStream ip (Some port)) ;;
          print ("[Sample] Using Stream input, IP: " ++ " " ++ ip_str) ;;
          ret (set_input (STREAM ip (Some port)) init)
      end
    else if ip_digits_only ip_str
            && (Z.of_nat (List.length (split "." ip_str)) =? 4)
    then
      emit (SetFromStream ip_str None) ;;
      print ("[Sample] Using Stream input, IP: " ++ " " ++ ip_str) ;;
      ret (set_input (STREAM ip_str None) init)
    else
      print "Invalid IP format. Using live stream" ;;
      ret init
  else ret init.

Definition resolution_block (init : InitParameters) (opt : Options)
  : M InitParameters :=
  if contains "HD2K" (resolution opt) then
    print "[Sample] Using Camera in resolution HD2K" ;;
    ret (set_camera_resolution HD2K init)
  else if contains "HD1200" (resolution opt) then
    print "[Sample] Using Camera in resolution HD1200" ;;
    ret (set_camera_resolution HD1200 init)
  else if contains "HD1080" (resolution opt) then
    print "[Sample] Using Camera in resolution HD1080" ;;
    ret (set_camera_resolution HD1080 init)
  else if contains "HD720" (resolution opt) then
    print "[Sample] Using Camera in resolution HD720" ;;
    ret (set_camera_resolution HD720 init)
  else if contains "SVGA" (resolution opt) then
    print "[Sample] Using Camera in resolution SVGA" ;;
    ret (set_camera_resolution SVGA init)
  else if contains "VGA" (resolution opt) then
    print "[Sample] Using Camera in resolution VGA" ;;
    ret (set_camera_resolution VGA init)
  else if 0 <? len (resolution opt) then
    print "[Sample] No valid resolution entered. Using default" ;;
    ret init
  else
    print "[Sample] Using default resolution" ;;
    ret init.

(** The stream branch with a port is the one place [parse_args] can raise:
    [stream_port_bad] tells when [int] is reached on text it rejects. *)
Definition stream_port_bad (opt : Options) : bool :=
  negb ((0 <? len (input_svo_file opt)) && endswith (input_svo_file opt) ".svo")
  && (0 <? len (ip_address opt))
  && ip_digits_only (ip_address opt)
  && (Z.of_nat (List.length (split "." (ip_address opt))) =? 4)
  && (Z.of_nat (List.length (split ":" (ip_address opt))) =? 2)
  && negb (isdigit (nth 1 (split ":" (ip_address opt)) "")).

(** The kinds of event [parse_args] can perform. *)
Definition is_parse_args_event (ev : event) : Prop :=
  match ev with
  | Print _ _ | SetFromSvoFile _ | SetFromStream _ _ => True
  | _ => False
  end.

(** *** The resolution table as the specification words it

    The six names in the order they are tested, each with its constant. *)
Definition resolution_table : list (string * RESOLUTION) :=
  [("HD2K", HD2K); ("HD1200", HD1200); ("HD1080", HD1080);
   ("HD720", HD720); ("SVGA", SVGA); ("VGA", VGA)].

(** The constant of the first name of the table that [arg] contains, or
    [default] when it contains none. *)
Definition resolution_of (arg : string) (default : RESOLUTION) : RESOLUTION :=
  match List.find (fun entry => contains (fst entry) arg) resolution_table with
  | Some (_, r) => r
  | None => default
  end.

End Args.

(* ================================================================= *)
(** ** [main], its poll loop, and the [__main__] guard *)

Module Loop.

Import Py Sdk Eff Args.
Local Open Scope string_scope.
Local Open Scope bool_scope.
Local Open Scope Z_scope.
Local Open Scope eff_scope.

(** The two scalars that live across iterations. *)
Record LoopState : Set := {
  recording_enabled : bool;
  frame_count : Z
}.

(** What one pass of the [while] body observes of the outside world: the
    status of [zed.grab()], the viewer's flags as the keyboard callbacks left
    them ([key_pressed] is [None] when the viewer has no such attribute), the
    clock readings and the status each [write] would return. *)
Record Frame : Set := {
  grab_status : ERROR_CODE;
  save_data : bool;
  key_pressed : option Z;
  save_timestamp : string;
  save_status : ERROR_CODE;
  record_timestamp : string;
  record_status : ERROR_CODE
}.

(** The outside world of one run: whether [point_clouds] exists, the
    resolution [sl.InitParameters] starts with, the status of [zed.open], and
    one [Frame] per iteration for which [viewer.is_available()] holds. *)
Record World : Set := {
  dir_exists : bool;
  default_resolution : RESOLUTION;
  open_status : ERROR_CODE;
  frames : list Frame
}.

Definition save_dir : string := "point_clouds".

Definition pointcloud_filename (timestamp : string) : string :=
  path_join save_dir ("pointcloud_" ++ timestamp ++ ".ply").

(** [viewer.key_pressed == ord('r')], guarded by [hasattr]. *)
Definition is_r_key (k : option Z) : bool :=
  match k with
  | Some v => v =? ord "r"
  | None => false
  end.

(** The body of [while viewer.is_available():]. *)
Definition loop_body (st : LoopState) (f : Frame) : M LoopState :=
  emit (Grab (grab_status f)) ;;
  if is_success (grab_status f) then
    emit (RetrieveMeasure false) ;;
    emit UpdateData ;;
    (if save_data f then
       let filename := pointcloud_filename (save_timestamp f) in
       emit (RetrieveMeasure true) ;;
       emit (WriteFile filename (save_status f)) ;;
       (if is_success (save_status f)
        then print ("Point cloud saved to: " ++ filename)
        else print ("Failed to save point cloud: "
                    ++ str_of_error (save_status f))) ;;
       emit (SetSaveData false)
     else ret tt) ;;
    st <-
      (if is_r_key (key_pressed f) then
         let recording := negb (recording_enabled st) in
         st <-
           (if recording then
              print "Continuous recording ENABLED" ;;
              ret {| recording_enabled := recording; frame_count := 0 |}
            else
              print ("Continuous recording DISABLED. Saved "
                     ++ str_of_int (frame_count st) ++ " frames.") ;;
              ret {| recording_enabled := recording;
                     frame_count := frame_count st |}) ;;
         emit (SetKeyPressed 0) ;;
         ret st
       else ret st) ;;
    if recording_enabled st then
      let filename := pointcloud_filename (record_timestamp f) in
      emit (RetrieveMeasure true) ;;
      emit (WriteFile filename (record_status f)) ;;
      if is_success (record_status f) then
        let count := frame_count st + 1 in
        emit (Print ("Recording frame " ++ str_of_int count ++ ": " ++ filename)
                    carriage_return) ;;
        ret {| recording_enabled := recording_enabled st;
               frame_count := count |}
      else
        print (newline ++ "Failed to save frame: "
               ++ str_of_error (record_status f)) ;;
        ret st
    else ret st
  else ret st.

(** The [while] loop over the iterations the viewer allows. *)
Fixpoint run_loop (st : LoopState) (fs : list Frame) : M LoopState :=
  match fs with
  | [] => emit (IsAvailable false) ;; ret st
  | f :: fs' =>
      emit (IsAvailable true) ;;
      st' <- loop_body st f ;;
      run_loop st' fs'
  end.

Definition initial_state : LoopState :=
  {| recording_enabled := false; frame_count := 0 |}.

Definition banner : M unit :=
  print (newline ++ "ZED Point Cloud Viewer with RGB Depth Gradient") ;;
  print "----------------------------------------------" ;;
  print "Depth coloring: RED (close) → GREEN (middle) → BLUE (far)" ;;
  print (newline ++ "Controls:") ;;
  print "Press 'Esc' to quit" ;;
  print "Press 's' to save a point cloud" ;;
  print "Press 'r' to enable/disable continuous recording" ;;
  print "Use mouse wheel to zoom in/out" ;;
  print "Use mouse to rotate the view".

(** [sl.InitParameters(depth_mode=..., ...)] as [main] constructs it; the
    resolution is the one the SDK starts with, the input the wired camera. *)
Definition init_parameters (sdk_resolution : RESOLUTION) : InitParameters :=
  {| depth_mode := ULTRA;
     coordinate_units := METER;
     coordinate_system := RIGHT_HANDED_Y_UP;
     depth_minimum_distance := 0.3%Q;
     depth_maximum_distance := 15.0%Q;
     camera_resolution := sdk_resolution;
     input := LIVE |}.

(** [main()]; [opt] is the module-level namespace it reads. *)
Definition main (w : World) (opt : Options) : M unit :=
  (if negb (dir_exists w) then emit (MakeDirs save_dir) else ret tt) ;;
  banner ;;
  init_params <- parse_args (init_parameters (default_resolution w)) opt ;;
  emit (CameraOpen init_params) ;;
  let status := open_status w in
  (if negb (is_success status) then
     print ("Error opening ZED camera: " ++ str_of_error status) ;;
     exit
   else ret tt) ;;
  emit SetupViewer ;;
  _ <- run_loop initial_state (frames w) ;;
  emit ViewerExit ;;
  emit CameraClose ;;
  print (newline ++ "Application closed").

(** The [if __name__ == "__main__":] block, after [parser.parse_args()]. *)
Definition script (w : World) (opt : Options) : M unit :=
  (if (0 <? len (input_svo_file opt)) && (0 <? len (ip_address opt)) then
     print "Specify only input_svo_file or ip_address, or none to use wired camera, not both. Exit program" ;;
     exit
   else ret tt) ;;
  main w opt.

(** Whether the toggle is taken in this pass: the frame was grabbed and the
    viewer reports the [r] key. *)
Definition pressed (f : Frame) : bool :=
  is_success (grab_status f) && is_r_key (key_pressed f).

(** The state one pass leaves behind, read off the branches of
    [loop_body]; [loop_body_returns] below proves it is that state. *)
Definition next_state (st : LoopState) (f : Frame) : LoopState :=
  let recording := xorb (recording_enabled st) (pressed f) in
  let base := if pressed f && recording then 0 else frame_count st in
  let wrote :=
    is_success (grab_status f) && recording && is_success (record_status f) in
  {| recording_enabled := recording;
     frame_count := if wrote then base + 1 else base |}.

(** The states the loop can be in at the top of an iteration. *)
Inductive reachable : LoopState -> Prop :=
| reachable_initial : reachable initial_state
| reachable_step st f log st' :
    reachable st ->
    loop_body st f = (log, Returned st') ->
    reachable st'.

End Loop.

(* ================================================================= *)
(** ** Measures on strings, frames and traces, used to state properties *)

Module Observe.

Import Py Sdk Eff Loop.

(** [s.count(c)] for a one-character [c]. *)
Fixpoint count_char (c : ascii) (s : string) : nat :=
  match s with
  | EmptyString => O
  | String a s' =>
      if Ascii.eqb a c then S (count_char c s') else count_char c s'
  end.

(** The passes of a run in which the toggle is taken. *)
Definition toggles (fs : list Frame) : nat :=
  List.length (List.filter pressed fs).

(** The [write] calls of a trace that returned [SUCCESS]. *)
Fixpoint successful_writes (log : list event) : Z :=
  match log with
  | [] => 0%Z
  | WriteFile _ SUCCESS :: log' => (1 + successful_writes log')%Z
  | _ :: log' => successful_writes log'
  end.

(** A frame during which the user asks for nothing: no save request and no
    [r] key. *)
Definition idle (f : Frame) : bool :=
  negb (save_data f) && negb (is_r_key (key_pressed f)).

(** The events a pass performs when [zed.grab()] fails, and the loop's own
    poll of the viewer. *)
Definition is_poll_event (ev : event) : Prop :=
  match ev with
  | IsAvailable _ | Grab _ => True
  | _ => False
  end.

End Observe.

(** Case analysis on every condition a goal branches on. *)
Ltac destruct_conditions :=
  repeat match goal with
         | |- context [if ?b then _ else _] => destruct b eqn:?
         | |- context [match Py.int ?s with _ => _ end] =>
             destruct (Py.int s) eqn:?
         end.

(* ================================================================= *)
(** * Properties of the colour gradient *)

Section ShaderFacts.

Import Shader.
Local Open Scope Q_scope.

Lemma vec3_eq_refl (u : vec3) : vec3_eq u u.
Proof. repeat split; reflexivity. Qed.

Lemma vec3_eq_sym (u v : vec3) : vec3_eq u v -> vec3_eq v u.
Proof. intros (Hr & Hg & Hb). repeat split; symmetry; assumption. Qed.

Lemma vec3_eq_trans (u v w : vec3) : vec3_eq u v -> vec3_eq v w -> vec3_eq u w.
Proof.
  intros (Hr & Hg & Hb) (Hr' & Hg' & Hb').
  repeat split; etransitivity; eassumption.
Qed.

(** Dividing by the depth range is multiplying by [2/19]. *)
Lemma depth_range_scale (x : Q) :
  x / (max_depth - min_depth) == x * (2 # 19).
Proof. unfold max_depth, min_depth. field. Qed.

Lemma clamp_below (x lo hi : Q) : x <= lo -> lo <= hi -> clamp x lo hi == lo.
Proof.
  intros Hx Hlh. unfold clamp.
  rewrite (Q.max_r x lo Hx). apply Q.min_l. exact Hlh.
Qed.

Lemma clamp_above (x lo hi : Q) : hi <= x -> lo <= hi -> clamp x lo hi == hi.
Proof.
  intros Hx Hlh. unfold clamp.
  apply Q.min_r. apply Q.max_le_iff. left. exact Hx.
Qed.

Lemma clamp_inside (x lo hi : Q) : lo <= x -> x <= hi -> clamp x lo hi == x.
Proof.
  intros Hlo Hhi. unfold clamp.
  rewrite (Q.max_l x lo Hlo). apply Q.min_l. exact Hhi.
Qed.

Lemma clamp_range (x lo hi : Q) : lo <= hi -> lo <= clamp x lo hi <= hi.
Proof.
  intros Hlh. unfold clamp. split.
  - apply Q.min_glb; [apply Q.le_max_r | exact Hlh].
  - apply Q.le_min_r.
Qed.

Lemma normalized_depth_range (depth : Q) :
  0 <= normalized_depth depth <= 1.
Proof.
  unfold normalized_depth.
  destruct (clamp_range ((depth - min_depth) / (max_depth - min_depth)) 0.0 1.0)
    as [Hlo Hhi]; [lra | split; lra].
Qed.

Lemma normalized_depth_near (depth : Q) :
  depth <= min_depth -> normalized_depth depth == 0.
Proof.
  intros H. unfold normalized_depth.
  rewrite clamp_below; [reflexivity | | lra].
  rewrite depth_range_scale. unfold min_depth in *. lra.
Qed.

Lemma normalized_depth_far (depth : Q) :
  max_depth <= depth -> normalized_depth depth == 1.
Proof.
  intros H. unfold normalized_depth.
  rewrite clamp_above; [reflexivity | | lra].
  rewrite depth_range_scale. unfold max_depth, min_depth in *. lra.
Qed.

Lemma normalized_depth_between (depth : Q) :
  min_depth <= depth <= max_depth ->
  normalized_depth depth == (depth - min_depth) * (2 # 19).
Proof.
  intros [Hlo Hhi]. unfold normalized_depth.
  rewrite clamp_inside; rewrite ?depth_range_scale;
    unfold max_depth, min_depth in *; lra.
Qed.

(** The branch taken depends on the value of [nd] only. *)
Lemma gradient_compat (nd nd' : Q) :
  nd == nd' -> vec3_eq (gradient nd) (gradient nd').
Proof.
  intros E. unfold gradient.
  destruct (Qlt_le_dec nd 0.33), (Qlt_le_dec nd' 0.33); try lra;
    [ unfold segment1, vec3_eq; simpl; repeat split; lra | ].
  destruct (Qlt_le_dec nd 0.67), (Qlt_le_dec nd' 0.67); try lra;
    unfold segment2, segment3, vec3_eq; simpl; repeat split; lra.
Qed.

Lemma gradient_at_zero : vec3_eq (gradient 0) pure_red.
Proof. unfold vec3_eq; simpl; repeat split; lra. Qed.

Lemma gradient_at_one : vec3_eq (gradient 1) (Vec3 0 (1 # 100) 1).
Proof. unfold vec3_eq; simpl; repeat split; lra. Qed.

(** Beyond the far bound the green channel stays at one hundredth. *)
Lemma depth_color_far (depth : Q) :
  max_depth <= depth -> vec3_eq (depth_color depth) (Vec3 0 (1 # 100) 1).
Proof.
  intros H. unfold depth_color.
  eapply vec3_eq_trans; [ | exact gradient_at_one ].
  apply gradient_compat, normalized_depth_far, H.
Qed.

End ShaderFacts.

Section ShaderClaims.

Import Shader.
Local Open Scope Q_scope.

(** C5: for every depth at or below the near bound (0.5 m) the colour is
    pure red, the triple (1, 0, 0). *)
Theorem depth_color_near (depth : Q) :
  depth <= min_depth -> vec3_eq (depth_color depth) pure_red.
Proof.
  intros H. unfold depth_color.
  eapply vec3_eq_trans; [ | exact gradient_at_zero ].
  apply gradient_compat, normalized_depth_near, H.
Qed.

Lemma depth_color_near_witness :
  (1 # 4) <= min_depth /\ vec3_eq (depth_color (1 # 4)) pure_red.
Proof.
  assert (H : (1 # 4) <= min_depth) by (unfold min_depth, Qle; simpl; lia).
  split; [ exact H | exact (depth_color_near (1 # 4) H) ].
Defined.

(** C1: at the far bound (10.0 m) the shader's colour is (0, 1/100, 1): the
    third segment starts at 0.67 with slope 3 and so ends at green 0.01, not
    at pure blue (0, 0, 1). *)
Theorem depth_color_at_far_bound :
  vec3_eq (depth_color 10) (Vec3 0 (1 # 100) 1) /\
  ~ vec3_eq (depth_color 10) pure_blue.
Proof.
  split.
  - apply depth_color_far. unfold max_depth. lra.
  - intros (_ & Hg & _). vm_compute in Hg. discriminate Hg.
Qed.

(** No depth at or beyond the far bound is coloured pure blue. *)
Lemma depth_color_far_not_blue (depth : Q) :
  max_depth <= depth -> ~ vec3_eq (depth_color depth) pure_blue.
Proof.
  intros H (_ & Hg & _).
  destruct (depth_color_far depth H) as (_ & Hg' & _).
  rewrite Hg' in Hg. vm_compute in Hg. discriminate Hg.
Qed.

(** C2: the segment formulas do not meet at the boundaries.  At 0.33 the
    first formula gives (1, 0.99, 0) and the second (1, 1, 0); at 0.67 the
    second gives (-0.02, 1, 1.02) and the third (0, 1, 1). *)
Theorem segments_differ_at_boundaries :
  (vec3_eq (segment1 0.33) (Vec3 1 (99 # 100) 0) /\
   vec3_eq (segment2 0.33) pure_yellow /\
   ~ vec3_eq (segment1 0.33) (segment2 0.33)) /\
  (vec3_eq (segment2 0.67) (Vec3 (- (2 # 100)) 1 (102 # 100)) /\
   vec3_eq (segment3 0.67) pure_cyan /\
   ~ vec3_eq (segment2 0.67) (segment3 0.67)).
Proof.
  split; (split; [ | split ]).
  - unfold vec3_eq; simpl; repeat split; lra.
  - unfold vec3_eq; simpl; repeat split; lra.
  - intros (_ & Hg & _). vm_compute in Hg. discriminate Hg.
  - unfold vec3_eq; simpl; repeat split; lra.
  - unfold vec3_eq; simpl; repeat split; lra.
  - intros (Hr & _ & _). vm_compute in Hr. discriminate Hr.
Qed.

(** Below a boundary the gradient is the left formula, from it on the right
    one, so the mismatch of the formulas is a jump of the gradient itself. *)
Lemma gradient_jump_at_first_boundary (nd : Q) :
  nd < 0.33 ->
  vec3_eq (gradient nd) (segment1 nd) /\
  green (gradient nd) < 99 # 100 /\
  green (gradient 0.33) == 1.
Proof.
  intros H. unfold gradient at 1 2.
  destruct (Qlt_le_dec nd 0.33); [ | lra ].
  split; [ apply vec3_eq_refl | ].
  split; [ simpl; lra | vm_compute; reflexivity ].
Qed.

Lemma gradient_jump_at_second_boundary (nd : Q) :
  0.33 <= nd < 0.67 ->
  vec3_eq (gradient nd) (segment2 nd) /\
  red (gradient nd) == 3 * (0.67 - nd) - (2 # 100) /\
  red (gradient 0.67) == 0.
Proof.
  intros [Hlo Hhi].
  assert (E : vec3_eq (gradient nd) (segment2 nd)).
  { unfold gradient.
    destruct (Qlt_le_dec nd 0.33); [ lra | ].
    destruct (Qlt_le_dec nd 0.67); [ apply vec3_eq_refl | lra ]. }
  split; [ exact E | ].
  split; [ | vm_compute; reflexivity ].
  destruct E as (Hr & _ & _). rewrite Hr. simpl. lra.
Qed.

(** C3: at depth 6.8175 m (normalized depth 0.665, still in the middle
    segment) the red channel is negative and the blue channel exceeds one. *)
Theorem depth_color_out_of_range :
  normalized_depth (2727 # 400) == 665 # 1000 /\
  red (depth_color (2727 # 400)) == - (5 # 1000) /\
  blue (depth_color (2727 # 400)) == 1005 # 1000 /\
  red (depth_color (2727 # 400)) < 0 /\
  1 < blue (depth_color (2727 # 400)).
Proof. repeat split; vm_compute; reflexivity. Qed.

(** What does hold: every channel stays within a fiftieth of [0, 1]. *)
Lemma depth_color_channels_bound (depth : Q) :
  let c := depth_color depth in
  - (1 # 50) <= red c <= 1 + (1 # 50) /\
  0 <= green c <= 1 /\
  0 <= blue c <= 1 + (1 # 50).
Proof.
  unfold depth_color.
  destruct (normalized_depth_range depth) as [Hlo Hhi].
  generalize dependent (normalized_depth depth). intros nd Hlo Hhi.
  unfold gradient.
  destruct (Qlt_le_dec nd 0.33);
    [ | destruct (Qlt_le_dec nd 0.67) ]; simpl; repeat split; lra.
Qed.

(** C4: at depth 1.45 m (normalized depth 0.1) the shader's green channel is
    3/10, while interpolating red to yellow over [0, 0.33] gives 10/33. *)
Theorem depth_color_differs_from_reference :
  normalized_depth (145 # 100) == 1 # 10 /\
  green (depth_color (145 # 100)) == 3 # 10 /\
  green (depth_color_reference (145 # 100)) == 10 # 33 /\
  ~ vec3_eq (depth_color (145 # 100)) (depth_color_reference (145 # 100)).
Proof.
  repeat split; try (vm_compute; reflexivity).
  intros (_ & Hg & _). vm_compute in Hg. discriminate Hg.
Qed.

End ShaderClaims.

(* ================================================================= *)
(** * Properties of the string operations *)

Section PyFacts.

Import Py.
Local Open Scope string_scope.




Lemma endswith_unfold (s suffix : string) :
  endswith s suffix =
  (String.eqb s suffix ||
   match s with EmptyString => false | String _ s' => endswith s' suffix end)%bool.
Proof. destruct s; reflexivity. Qed.

(** [endswith] is Python's [str.endswith]. *)
Lemma endswith_iff (s suffix : string) :
  endswith s suffix = true <-> exists pre, s = pre ++ suffix.
Proof.
  split.
  - induction s as [ | c s IH ]; rewrite endswith_unfold, orb_true_iff.
    + intros [H | H]; [ | discriminate ].
      apply String.eqb_eq in H as <-. exists "". reflexivity.
    + intros [H | H].
      * apply String.eqb_eq in H as <-. exists "". reflexivity.
      * destruct (IH H) as (pre & ->). exists (String c pre). reflexivity.
  - intros (pre & ->). induction pre as [ | c pre IH ].
    + rewrite endswith_unfold, String.eqb_refl. reflexivity.
    + simpl. rewrite IH. apply orb_true_r.
Qed.

Lemma len_pos_iff (s : string) : (0 <? len s)%Z = true <-> s <> "".
Proof.
  unfold len. destruct s; simpl; split; try congruence; try discriminate.
  - intros _. apply Z.ltb_lt. lia.
Qed.

Lemma len_pos_false_iff (s : string) : (0 <? len s)%Z = false <-> s = "".
Proof.
  destruct (len_pos_iff s) as [H1 H2]. destruct s.
  - split; [ reflexivity | intros _; reflexivity ].
  - split; [ | discriminate ]. intros H. rewrite H2 in H; congruence.
Qed.

(** [split] never returns the empty list, and without the separator it
    returns the string whole. *)
Lemma split_not_nil (sep : ascii) (s : string) : split sep s <> [].
Proof.
  induction s as [ | a s IH ]; simpl; [ discriminate | ].
  destruct (Ascii.eqb a sep); [ discriminate | ].
  destruct (split sep s); discriminate.
Qed.

(** Every piece [split] returns keeps a property that holds of every
    character of the string other than the separator. *)
Lemma split_pieces (sep : ascii) (keep : ascii -> bool) (s : string) :
  all_chars (fun a => keep a || Ascii.eqb a sep) s = true ->
  forall piece, In piece (split sep s) -> all_chars keep piece = true.
Proof.
  induction s as [ | a s IH ]; intros Hs piece Hin.
  - simpl in Hin. destruct Hin as [<- | []]. reflexivity.
  - simpl in Hs. apply andb_prop in Hs as [Ha Hs]. simpl in Hin.
    destruct (Ascii.eqb a sep) eqn:Ea.
    + destruct Hin as [<- | Hin]; [ reflexivity | exact (IH Hs piece Hin) ].
    + rewrite orb_false_r in Ha.
      destruct (split sep s) as [ | first rest ] eqn:Es.
      * destruct Hin as [<- | []]. simpl. rewrite Ha. reflexivity.
      * destruct Hin as [<- | Hin].
        -- simpl. rewrite Ha. apply (IH Hs first). left. reflexivity.
        -- apply (IH Hs piece). right. exact Hin.
Qed.

Lemma remove_char_digits (s : string) :
  all_digits (remove_char "." (remove_char ":" s)) = true ->
  all_chars (fun a => (is_digit_char a || Ascii.eqb a ".") || Ascii.eqb a ":")
            s = true.
Proof.
  unfold all_digits.
  induction s as [ | a s IH ]; [ reflexivity | ]. simpl.
  destruct (Ascii.eqb a ":") eqn:Ec.
  - intros H. rewrite orb_true_r. exact (IH H).
  - simpl. destruct (Ascii.eqb a ".") eqn:Ed.
    + intros H. rewrite orb_true_r. exact (IH H).
    + simpl. intros H. apply andb_prop in H as [Ha H].
      rewrite Ha. exact (IH H).
Qed.

(** The text handed to [int] holds digits and dots only. *)
Lemma port_text_digits_or_dots (ip_str piece : string) :
  isdigit (remove_char "." (remove_char ":" ip_str)) = true ->
  In piece (split ":" ip_str) ->
  digits_or_dots piece = true.
Proof.
  unfold isdigit, digits_or_dots. intros H Hin.
  apply andb_prop in H as [_ H]. apply remove_char_digits in H.
  exact (split_pieces ":" _ ip_str H piece Hin).
Qed.

(** [int] raises exactly for the empty text and for text with a character
    that is not a digit. *)
Lemma int_none_iff (s : string) :
  int s = None <-> s = "" \/ all_digits s = false.
Proof.
  unfold int, isdigit. destruct s as [ | a s ].
  - simpl. split; [ left; reflexivity | reflexivity ].
  - cbn [String.eqb negb andb].
    destruct (all_digits (String a s)); split; intro H;
      try discriminate; try reflexivity.
    + destruct H; discriminate.
    + right. reflexivity.
Qed.

End PyFacts.

(* ================================================================= *)
(** * Properties of [parse_args] *)

Section ArgsFacts.

Import Py Sdk Eff Args.
Local Open Scope string_scope.
Local Open Scope eff_scope.

Lemma bind_returned {A B} (log : list event) (a : A) (k : A -> M B) :
  bind (log, Returned a) k = ((log ++ trace (k a))%list, result (k a)).
Proof. unfold bind, trace, result. destruct (k a). reflexivity. Qed.

Lemma bind_raised {A B} (log : list event) (e : exn) (k : A -> M B) :
  bind (log, Raised e) k = (log, Raised e).
Proof. reflexivity. Qed.

(** An event of [m ;; k] is an event of [m] or of the continuation. *)
Lemma in_trace_bind {A B} (m : M A) (k : A -> M B) (ev : event) :
  In ev (trace (bind m k)) ->
  In ev (trace m) \/ exists a, result m = Returned a /\ In ev (trace (k a)).
Proof.
  destruct m as [log [a | e]].
  - rewrite bind_returned. unfold trace at 1. simpl fst.
    intros H. apply in_app_or in H as [H | H]; [ left; exact H | ].
    right. exists a. split; [ reflexivity | exact H ].
  - rewrite bind_raised. intros H. left. exact H.
Qed.

Lemma parse_args_blocks (init : InitParameters) (opt : Options) :
  parse_args init opt =
  (init1 <- input_block init opt ;; resolution_block init1 opt).
Proof. reflexivity. Qed.

(** The resolution chain always returns, after one line of output, and
    follows the table. *)
Lemma resolution_block_returns (init : InitParameters) (opt : Options) :
  exists msg init',
    resolution_block init opt = ([Print msg newline], Returned init') /\
    camera_resolution init' =
      resolution_of (resolution opt) (camera_resolution init) /\
    input init' = input init.
Proof.
  unfold resolution_block, resolution_of.
  cbn [List.find resolution_table fst].
  repeat match goal with
         | |- context [if ?b then _ else _] => destruct b
         end;
    eexists; eexists; (split; [ reflexivity | split; reflexivity ]).
Qed.

(** The input-source statement raises exactly when [stream_port_bad] says
    so; otherwise it returns and leaves the resolution alone. *)
Lemma input_block_raises (init : InitParameters) (opt : Options) :
  stream_port_bad opt = true ->
  input_block init opt = ([], Raised ValueError).
Proof.
  unfold stream_port_bad, input_block. intros H.
  repeat (apply andb_prop in H as [H ?]).
  apply negb_true_iff in H.
  match goal with E : negb (isdigit _) = true |- _ =>
    apply negb_true_iff in E; unfold int; cbn zeta; rewrite H; rewrite E end.
  repeat match goal with E : _ = true |- _ => rewrite E; clear E end.
  reflexivity.
Qed.

Lemma input_block_returns (init : InitParameters) (opt : Options) :
  stream_port_bad opt = false ->
  exists log init',
    input_block init opt = (log, Returned init') /\
    camera_resolution init' = camera_resolution init.
Proof.
  unfold stream_port_bad, input_block, int. cbn zeta.
  destruct ((0 <? len (input_svo_file opt))%Z
            && endswith (input_svo_file opt) ".svo"),
    (0 <? len (ip_address opt))%Z,
    (ip_digits_only (ip_address opt)),
    (Z.of_nat (List.length (split "." (ip_address opt))) =? 4)%Z,
    (Z.of_nat (List.length (split ":" (ip_address opt))) =? 2)%Z,
    (isdigit (nth 1 (split ":" (ip_address opt)) ""));
    simpl; intros H; try discriminate H;
    eexists; eexists; split; reflexivity.
Qed.

Lemma parse_args_raises (init : InitParameters) (opt : Options) :
  stream_port_bad opt = true ->
  parse_args init opt = ([], Raised ValueError).
Proof.
  intros H. rewrite parse_args_blocks, (input_block_raises init opt H).
  reflexivity.
Qed.

(** Unless the stream port text is rejected, [parse_args] returns and the
    resolution is the one the table gives for the argument: the constant of
    the first listed name the argument contains, else the incoming value. *)
Lemma parse_args_resolution (init : InitParameters) (opt : Options) :
  stream_port_bad opt = false ->
  exists log init',
    parse_args init opt = (log, Returned init') /\
    camera_resolution init' =
      resolution_of (resolution opt) (camera_resolution init).
Proof.
  intros H. rewrite parse_args_blocks.
  destruct (input_block_returns init opt H) as (log1 & init1 & E1 & R1).
  destruct (resolution_block_returns init1 opt) as (msg & init' & E2 & R2 & _).
  rewrite E1, bind_returned, E2. unfold trace, result. simpl.
  eexists; eexists; split; [ reflexivity | ]. rewrite R2, R1. reflexivity.
Qed.

(** With no usable file and no address, [parse_args] prints the resolution
    line only and leaves the input source as it found it. *)
Lemma parse_args_without_source (init : InitParameters) (opt : Options) :
  ((0 <? len (input_svo_file opt))%Z
   && endswith (input_svo_file opt) ".svo")%bool = false ->
  ip_address opt = "" ->
  exists msg init',
    parse_args init opt = ([Print msg newline], Returned init') /\
    input init' = input init.
Proof.
  intros Hcond Hip. rewrite parse_args_blocks.
  assert (E1 : input_block init opt = ([], Returned init)).
  { unfold input_block. rewrite Hcond, Hip. reflexivity. }
  destruct (resolution_block_returns init opt) as (msg & init' & E2 & _ & I2).
  rewrite E1, bind_returned, E2. simpl.
  exists msg, init'. split; [ reflexivity | exact I2 ].
Qed.

End ArgsFacts.

Section ArgsClaims.

Import Py Sdk Eff Args Loop.
Local Open Scope string_scope.
Local Open Scope eff_scope.

(** C8: with [--ip_address 1.2.3.4:] and [--resolution HD720] the stream
    branch reaches [int('')], which raises; [parse_args] ends there, before
    the resolution chain, whatever [init] it was given.  (Without such a
    port text the table is followed: [parse_args_resolution].) *)
Theorem parse_args_bad_port_skips_resolution (init : InitParameters) :
  stream_port_bad {| input_svo_file := ""; ip_address := "1.2.3.4:";
                     resolution := "HD720" |} = true /\
  resolution_of "HD720" (camera_resolution init) = HD720 /\
  parse_args init {| input_svo_file := ""; ip_address := "1.2.3.4:";
                     resolution := "HD720" |} = ([], Raised ValueError).
Proof. repeat split. Qed.

Lemma input_block_without_svo (init : InitParameters) (opt : Options) :
  ((0 <? len (input_svo_file opt))%Z
   && endswith (input_svo_file opt) ".svo")%bool = false ->
  input_block init opt = input_block init (with_input_svo_file "" opt).
Proof. unfold input_block. intros H. rewrite H. reflexivity. Qed.

Lemma input_block_no_svo_call (init : InitParameters) (opt : Options) :
  ((0 <? len (input_svo_file opt))%Z
   && endswith (input_svo_file opt) ".svo")%bool = false ->
  forall path, ~ In (SetFromSvoFile path) (trace (input_block init opt)).
Proof.
  unfold input_block. intros H path. rewrite H. cbn zeta.
  destruct_conditions; simpl; intuition discriminate.
Qed.

(** C10: a non-empty [--input_svo_file] that does not end in [.svo] is
    ignored: [parse_args] behaves as if the argument had not been given,
    never calls [set_from_svo_file], and with an empty [--ip_address] it
    returns with the input source untouched (the wired camera), having
    printed the resolution line only. *)
Theorem parse_args_ignores_non_svo_file
    (init : InitParameters) (opt : Options) :
  input_svo_file opt <> "" ->
  ~ (exists pre, input_svo_file opt = pre ++ ".svo") ->
  parse_args init opt = parse_args init (with_input_svo_file "" opt) /\
  (forall path, ~ In (SetFromSvoFile path) (trace (parse_args init opt))) /\
  (ip_address opt = "" ->
   exists msg init',
     parse_args init opt = ([Print msg newline], Returned init') /\
     input init' = input init).
Proof.
  intros Hne Hsuffix.
  assert (Hcond : ((0 <? len (input_svo_file opt))%Z
                   && endswith (input_svo_file opt) ".svo")%bool = false).
  { apply andb_false_iff. right.
    destruct (endswith (input_svo_file opt) ".svo") eqn:E; [ | reflexivity ].
    apply endswith_iff in E. contradiction. }
  split; [ | split ].
  - rewrite !parse_args_blocks, (input_block_without_svo init opt Hcond).
    reflexivity.
  - intros path Hin. rewrite parse_args_blocks in Hin.
    apply in_trace_bind in Hin as [Hin | (init1 & _ & Hin)].
    + exact (input_block_no_svo_call init opt Hcond path Hin).
    + destruct (resolution_block_returns init1 opt) as (msg & init' & E & _).
      rewrite E in Hin. simpl in Hin. intuition discriminate.
  - intros Hip. exact (parse_args_without_source init opt Hcond Hip).
Qed.

Lemma parse_args_ignores_non_svo_file_witness :
  let opt := {| input_svo_file := "clip.mp4"; ip_address := "";
                resolution := "HD720" |} in
  parse_args (init_parameters AUTO) opt = parse_args (init_parameters AUTO) (with_input_svo_file "" opt) /\
  (forall path, ~ In (SetFromSvoFile path) (trace (parse_args (init_parameters AUTO) opt))) /\
  (ip_address opt = "" ->
   exists msg init',
     parse_args (init_parameters AUTO) opt = ([Print msg newline], Returned init') /\
     input init' = input (init_parameters AUTO)).
Proof.
  intros opt. apply (parse_args_ignores_non_svo_file (init_parameters AUTO) opt).
  - simpl. discriminate.
  - intros H. apply endswith_iff in H. vm_compute in H. discriminate H.
Defined.

End ArgsClaims.

(* ================================================================= *)
(** * Properties of the poll loop, of [main] and of the [__main__] guard *)

Section LoopFacts.

Import Py Sdk Eff Args Loop.
Local Open Scope string_scope.
Local Open Scope bool_scope.
Local Open Scope Z_scope.
Local Open Scope eff_scope.

(** Every pass of the loop body returns: nothing in it raises or exits. *)
Lemma loop_body_returns (st : LoopState) (f : Frame) :
  result (loop_body st f) = Returned (next_state st f).
Proof.
  destruct st as [rec fc], f as [g sd k ts ss tr rs].
  unfold loop_body, next_state, pressed; cbn [grab_status save_data key_pressed
    save_status record_status recording_enabled frame_count].
  destruct g, sd, ss, (is_r_key k), rec, rs; reflexivity.
Qed.

Lemma loop_body_eq (st : LoopState) (f : Frame) :
  loop_body st f = (trace (loop_body st f), Returned (next_state st f)).
Proof.
  rewrite <- loop_body_returns. unfold trace, result.
  destruct (loop_body st f); reflexivity.
Qed.

(** The loop goes on with the next frame after any pass. *)
Lemma run_loop_cons (st : LoopState) (f : Frame) (fs : list Frame) :
  run_loop st (f :: fs) =
  ((IsAvailable true :: trace (loop_body st f)
      ++ trace (run_loop (next_state st f) fs))%list,
   result (run_loop (next_state st f) fs)).
Proof.
  cbn [run_loop]. rewrite (loop_body_eq st f).
  unfold emit. rewrite bind_returned, bind_returned.
  unfold trace, result. reflexivity.
Qed.

Lemma next_state_nonneg (st : LoopState) (f : Frame) :
  0 <= frame_count st -> 0 <= frame_count (next_state st f).
Proof.
  intros H. unfold next_state. cbn [frame_count].
  repeat match goal with
         | |- context [if ?b then _ else _] => destruct b
         end; lia.
Qed.

Lemma reachable_nonneg (st : LoopState) :
  reachable st -> 0 <= frame_count st.
Proof.
  induction 1 as [ | st f log st' _ IH Hstep ].
  - simpl. lia.
  - rewrite loop_body_eq in Hstep. injection Hstep as _ <-.
    apply next_state_nonneg, IH.
Qed.

Lemma reachable_next (st : LoopState) (f : Frame) :
  reachable st -> reachable (next_state st f).
Proof.
  intros H. eapply reachable_step; [ exact H | apply loop_body_eq ].
Qed.

(** The loop itself returns for every finite run of frames, in a reachable
    state when started from one. *)
Lemma run_loop_returns (fs : list Frame) (st : LoopState) :
  reachable st ->
  exists st', result (run_loop st fs) = Returned st' /\ reachable st'.
Proof.
  revert st. induction fs as [ | f fs IH ]; intros st H.
  - exists st. split; [ reflexivity | exact H ].
  - rewrite run_loop_cons. unfold result at 1. simpl snd.
    apply IH, reachable_next, H.
Qed.

End LoopFacts.

Section MainFacts.

Import Py Sdk Eff Args Loop.
Local Open Scope string_scope.
Local Open Scope bool_scope.
Local Open Scope Z_scope.
Local Open Scope eff_scope.

(** [parse_args] only prints and selects the input source. *)
Lemma parse_args_events (init : InitParameters) (opt : Options) (ev : event) :
  In ev (trace (parse_args init opt)) -> is_parse_args_event ev.
Proof.
  rewrite parse_args_blocks. intros H.
  apply in_trace_bind in H as [H | (init1 & _ & H)].
  - revert H. unfold input_block. cbn zeta.
    destruct_conditions; simpl; intuition (subst; exact I).
  - destruct (resolution_block_returns init1 opt) as (msg & init' & E & _).
    rewrite E in H. simpl in H. destruct H as [<- | []]. exact I.
Qed.

(** What [main] has done when [zed.open] fails: the directory check, the
    banner, [parse_args], the open, the error line; then [exit()]. *)
Lemma main_open_failure (w : World) (opt : Options)
    (log : list event) (init' : InitParameters) (text : string) :
  parse_args (init_parameters (default_resolution w)) opt
    = (log, Returned init') ->
  open_status w = FAILURE text ->
  main w opt =
  ((trace ((if negb (dir_exists w) then emit (MakeDirs save_dir) else ret tt)
           ;; banner)
    ++ log
    ++ [CameraOpen init';
        Print ("Error opening ZED camera: " ++ text) newline])%list,
   Raised SystemExit).
Proof.
  intros Hparse Hopen. unfold main. rewrite Hparse, Hopen.
  destruct (dir_exists w); cbn; rewrite <- ?app_assoc; reflexivity.
Qed.

(** With no usable file and no address, [main] opens the wired camera. *)
Lemma main_opens_live_camera (w : World) (opt : Options) :
  ((0 <? len (input_svo_file opt))%Z
   && endswith (input_svo_file opt) ".svo")%bool = false ->
  ip_address opt = "" ->
  exists init',
    In (CameraOpen init') (trace (main w opt)) /\ input init' = LIVE.
Proof.
  intros Hcond Hip.
  destruct (parse_args_without_source
              (init_parameters (default_resolution w)) opt Hcond Hip)
    as (msg & init' & Hparse & Hinput).
  exists init'. split; [ | exact Hinput ].
  unfold main. rewrite Hparse.
  destruct (dir_exists w), (open_status w);
    destruct (run_loop initial_state (frames w)) as [log [st | e]];
    cbn; tauto.
Qed.

End MainFacts.

Section LoopClaims.

Import Py Sdk Eff Args Loop.
Local Open Scope string_scope.
Local Open Scope bool_scope.
Local Open Scope Z_scope.
Local Open Scope eff_scope.

(** C7: when both [--input_svo_file] and [--ip_address] are non-empty the
    script prints its one error line and exits: that line is all it does, so
    [main] is not entered, no camera is opened and no input is configured. *)
Theorem script_rejects_both_inputs (w : World) (opt : Options) :
  input_svo_file opt <> "" ->
  ip_address opt <> "" ->
  script w opt =
    ([Print "Specify only input_svo_file or ip_address, or none to use wired camera, not both. Exit program" newline],
     Raised SystemExit) /\
  (forall init, ~ In (CameraOpen init) (trace (script w opt))) /\
  (forall path, ~ In (SetFromSvoFile path) (trace (script w opt))) /\
  (forall ip port, ~ In (SetFromStream ip port) (trace (script w opt))).
Proof.
  intros Hsvo Hip.
  assert (E : script w opt =
    ([Print "Specify only input_svo_file or ip_address, or none to use wired camera, not both. Exit program" newline],
     Raised SystemExit)).
  { unfold script.
    apply len_pos_iff in Hsvo. apply len_pos_iff in Hip.
    rewrite Hsvo, Hip. reflexivity. }
  rewrite E. split; [ reflexivity | ].
  repeat split; intros; simpl; intuition discriminate.
Qed.

Lemma script_rejects_both_inputs_witness :
  let w := {| dir_exists := true; default_resolution := AUTO;
              open_status := SUCCESS; frames := [] |} in
  let opt := {| input_svo_file := "run.svo"; ip_address := "10.0.0.7";
                resolution := "" |} in
  script w opt =
    ([Print "Specify only input_svo_file or ip_address, or none to use wired camera, not both. Exit program" newline],
     Raised SystemExit) /\
  (forall init, ~ In (CameraOpen init) (trace (script w opt))) /\
  (forall path, ~ In (SetFromSvoFile path) (trace (script w opt))) /\
  (forall ip port, ~ In (SetFromStream ip port) (trace (script w opt))).
Proof.
  intros w opt.
  apply (script_rejects_both_inputs w opt); simpl; discriminate.
Defined.

(** With at most one of the two given, the guard lets [main] run, and
    [main] starts by printing its banner. *)
Lemma script_runs_main (w : World) (opt : Options) :
  input_svo_file opt = "" \/ ip_address opt = "" ->
  script w opt = main w opt.
Proof.
  intros H. unfold script.
  assert (E : (0 <? len (input_svo_file opt)) && (0 <? len (ip_address opt))
              = false).
  { apply andb_false_iff.
    destruct H as [H | H]; [ left | right ]; apply len_pos_false_iff, H. }
  rewrite E. unfold ret. destruct (main w opt) as [log [[] | e]]; reflexivity.
Qed.

End LoopClaims.

Section RecordingClaims.

Import Py Sdk Eff Args Loop.
Local Open Scope string_scope.
Local Open Scope bool_scope.
Local Open Scope Z_scope.
Local Open Scope eff_scope.

Ltac loop_cases st f :=
  destruct st as [rec fc], f as [g sd k ts ss tr rs];
  cbn [grab_status save_data key_pressed save_status record_status
       recording_enabled frame_count] in *;
  subst; unfold loop_body;
  cbn [grab_status save_data key_pressed save_status record_status
       save_timestamp record_timestamp recording_enabled frame_count
       is_success].

(** C6: a failed write is logged and the loop goes on; a failed open is
    logged and ends the process before the loop.
    - Every pass of the loop body returns, and the loop continues with the
      following frames from the state that pass left.
    - A failed one-shot save prints its failure line, and the state after the
      pass is the one any pass with the same key and recording write leaves:
      the save has no part in it.
    - A failed recording write prints its failure line and leaves the flag
      and the counter as the key handling of that pass set them.
    - When [zed.open] fails, [main] ends with [exit()], its last two actions
      being the open and the error line, and neither the loop condition nor
      [zed.grab] is ever evaluated. *)
Theorem write_failure_continues_open_failure_exits :
  (forall st f, exists st',
      result (loop_body st f) = Returned st' /\
      forall fs,
        run_loop st (f :: fs) =
        ((IsAvailable true :: trace (loop_body st f)
            ++ trace (run_loop st' fs))%list,
         result (run_loop st' fs))) /\
  (forall st f text,
      grab_status f = SUCCESS ->
      save_data f = true ->
      save_status f = FAILURE text ->
      In (Print ("Failed to save point cloud: " ++ text) newline)
         (trace (loop_body st f)) /\
      forall f',
        grab_status f' = SUCCESS ->
        key_pressed f' = key_pressed f ->
        record_status f' = record_status f ->
        result (loop_body st f') = result (loop_body st f)) /\
  (forall st f text,
      grab_status f = SUCCESS ->
      xorb (recording_enabled st) (is_r_key (key_pressed f)) = true ->
      record_status f = FAILURE text ->
      In (Print (newline ++ "Failed to save frame: " ++ text) newline)
         (trace (loop_body st f)) /\
      result (loop_body st f) =
        Returned {| recording_enabled := true;
                    frame_count := if is_r_key (key_pressed f) then 0
                                   else frame_count st |}) /\
  (forall w opt log init' text,
      parse_args (init_parameters (default_resolution w)) opt
        = (log, Returned init') ->
      open_status w = FAILURE text ->
      result (main w opt) = Raised SystemExit /\
      (exists before,
          trace (main w opt) =
          (before ++ [CameraOpen init';
                      Print ("Error opening ZED camera: " ++ text) newline])%list) /\
      (forall answer, ~ In (IsAvailable answer) (trace (main w opt))) /\
      (forall status, ~ In (Grab status) (trace (main w opt)))).
Proof.
  split; [ | split; [ | split ] ].
  - intros st f. exists (next_state st f).
    split; [ apply loop_body_returns | intros fs; apply run_loop_cons ].
  - intros st f text Hg Hsd Hss. split.
    + loop_cases st f.
      destruct (is_r_key k), rec, rs; simpl; tauto.
    + intros f' Hg' Hk Hr. rewrite !loop_body_returns. f_equal.
      unfold next_state, pressed. rewrite Hg, Hg', Hk, Hr. reflexivity.
  - intros st f text Hg Hx Hrs. split.
    + loop_cases st f.
      destruct sd, ss, (is_r_key k), rec; try discriminate Hx; simpl; tauto.
    + rewrite loop_body_returns. unfold next_state, pressed.
      rewrite Hg, Hrs. cbn [is_success andb]. rewrite Hx.
      destruct (is_r_key (key_pressed f)); reflexivity.
  - intros w opt log init' text Hparse Hopen.
    rewrite (main_open_failure w opt log init' text Hparse Hopen).
    unfold result, trace. cbn [fst snd].
    split; [ reflexivity | split; [ | split ] ].
    + eexists. rewrite app_assoc. reflexivity.
    + intros answer Hin.
      apply in_app_or in Hin as [Hin | Hin];
        [ | apply in_app_or in Hin as [Hin | Hin] ].
      * destruct (dir_exists w); simpl in Hin; intuition discriminate.
      * assert (Hev := parse_args_events
                        (init_parameters (default_resolution w)) opt
                        (IsAvailable answer)).
        rewrite Hparse in Hev. exact (Hev Hin).
      * simpl in Hin; intuition discriminate.
    + intros status Hin.
      apply in_app_or in Hin as [Hin | Hin];
        [ | apply in_app_or in Hin as [Hin | Hin] ].
      * destruct (dir_exists w); simpl in Hin; intuition discriminate.
      * assert (Hev := parse_args_events
                        (init_parameters (default_resolution w)) opt
                        (Grab status)).
        rewrite Hparse in Hev. exact (Hev Hin).
      * simpl in Hin; intuition discriminate.
Qed.

Lemma write_failure_continues_open_failure_exits_witness :
  let f := {| grab_status := SUCCESS; save_data := true;
              key_pressed := Some 114;
              save_timestamp := "20250101_120000";
              save_status := FAILURE "FAILURE";
              record_timestamp := "20250101_120000_000001";
              record_status := FAILURE "FAILURE" |} in
  let w := {| dir_exists := true; default_resolution := AUTO;
              open_status := FAILURE "CAMERA NOT DETECTED";
              frames := [f] |} in
  let opt := {| input_svo_file := ""; ip_address := "";
                resolution := "HD720" |} in
  (In (Print "Failed to save point cloud: FAILURE" newline)
      (trace (loop_body initial_state f)) /\
   In (Print (newline ++ "Failed to save frame: FAILURE") newline)
      (trace (loop_body initial_state f)) /\
   result (loop_body initial_state f) =
     Returned {| recording_enabled := true; frame_count := 0 |}) /\
  result (main w opt) = Raised SystemExit /\
  (forall answer, ~ In (IsAvailable answer) (trace (main w opt))).
Proof.
  intros f w opt.
  destruct write_failure_continues_open_failure_exits
    as (_ & Hsave & Hrecord & Hopen).
  destruct (Hsave initial_state f "FAILURE" eq_refl eq_refl eq_refl)
    as [Hsave_line _].
  destruct (Hrecord initial_state f "FAILURE" eq_refl eq_refl eq_refl)
    as [Hrecord_line Hstate].
  destruct (Hopen w opt
              [Print "[Sample] Using Camera in resolution HD720" newline]
              (set_camera_resolution HD720 (init_parameters AUTO))
              "CAMERA NOT DETECTED" eq_refl eq_refl)
    as (Hexit & _ & Hloop & _).
  split; [ split; [ exact Hsave_line | split;
             [ exact Hrecord_line | exact Hstate ] ] | ].
  split; [ exact Hexit | exact Hloop ].
Defined.

(** C9: in every state the loop can reach the frame counter is
    non-negative, and one more pass of the body returns a state in which it
    is again non-negative and is the old count, reset to zero if this pass
    switched recording on, plus one if this pass wrote a recording frame
    successfully.  Hence a pass that ends with recording off leaves the
    counter as it was, and a pass that starts and ends with recording on
    does not decrease it. *)
Theorem frame_count_invariant (st : LoopState) (f : Frame) :
  reachable st ->
  0 <= frame_count st /\
  exists log st',
    loop_body st f = (log, Returned st') /\
    reachable st' /\
    0 <= frame_count st' /\
    (let toggled := is_success (grab_status f) && is_r_key (key_pressed f) in
     let switched_on := toggled && negb (recording_enabled st) in
     let wrote := is_success (grab_status f) && recording_enabled st'
                  && is_success (record_status f) in
     recording_enabled st' = xorb (recording_enabled st) toggled /\
     frame_count st' =
       (if switched_on then 0 else frame_count st)
       + (if wrote then 1 else 0)) /\
    (recording_enabled st' = false -> frame_count st' = frame_count st) /\
    (recording_enabled st = true -> recording_enabled st' = true ->
     frame_count st <= frame_count st').
Proof.
  intros Hreach.
  assert (H0 := reachable_nonneg st Hreach).
  split; [ exact H0 | ].
  exists (trace (loop_body st f)), (next_state st f).
  split; [ apply loop_body_eq | ].
  split; [ apply reachable_next, Hreach | ].
  split; [ apply next_state_nonneg, H0 | ].
  unfold next_state, pressed.
  cbn [recording_enabled frame_count].
  destruct (is_success (grab_status f)), (is_r_key (key_pressed f)),
    (recording_enabled st), (is_success (record_status f));
    cbn; repeat split; intros; try discriminate; lia.
Qed.

Lemma frame_count_invariant_witness :
  let f := {| grab_status := SUCCESS; save_data := false;
              key_pressed := Some 114;
              save_timestamp := "20250101_120000";
              save_status := SUCCESS;
              record_timestamp := "20250101_120000_000001";
              record_status := SUCCESS |} in
  reachable initial_state /\
  0 <= frame_count initial_state /\
  exists log st',
    loop_body initial_state f = (log, Returned st') /\
    reachable st' /\
    0 <= frame_count st' /\
    (recording_enabled st' = true /\ frame_count st' = 0 + 1) /\
    (recording_enabled st' = false ->
     frame_count st' = frame_count initial_state) /\
    (recording_enabled initial_state = true -> recording_enabled st' = true ->
     frame_count initial_state <= frame_count st').
Proof.
  intros f. split; [ exact reachable_initial | ].
  destruct (frame_count_invariant initial_state f reachable_initial)
    as (H0 & log & st' & Hbody & Hreach & H1 & Hstep & Hoff & Hon).
  split; [ exact H0 | ].
  exists log, st'.
  assert (Est : st' = {| recording_enabled := true; frame_count := 1 |}).
  { apply (f_equal snd) in Hbody. vm_compute in Hbody. congruence. }
  repeat split; try assumption; rewrite Est; reflexivity.
Defined.

End RecordingClaims.

(* ================================================================= *)
(** * Further properties of the colour gradient *)

Section ShaderShape.

Import Shader.
Local Open Scope Q_scope.

Lemma clamp_monotone (x y lo hi : Q) :
  x <= y -> clamp x lo hi <= clamp y lo hi.
Proof.
  intros H. unfold clamp.
  apply Q.min_le_compat_r, Q.max_le_compat_r, H.
Qed.

(** The normalized depth in terms of the depth, by region. *)
Lemma normalized_depth_cases (depth : Q) :
  (depth <= min_depth /\ normalized_depth depth == 0) \/
  (min_depth <= depth <= max_depth /\
   normalized_depth depth == (depth - min_depth) * (2 # 19)) \/
  (max_depth <= depth /\ normalized_depth depth == 1).
Proof.
  destruct (Qlt_le_dec depth min_depth) as [Hlo | Hlo].
  - left. split; [ lra | apply normalized_depth_near; lra ].
  - destruct (Qlt_le_dec max_depth depth) as [Hhi | Hhi].
    + right. right. split; [ lra | apply normalized_depth_far; lra ].
    + right. left. split; [ lra | apply normalized_depth_between; lra ].
Qed.

Lemma normalized_depth_le (d1 d2 : Q) :
  d1 <= d2 -> normalized_depth d1 <= normalized_depth d2.
Proof.
  intros H. unfold normalized_depth. apply clamp_monotone.
  rewrite !depth_range_scale. lra.
Qed.

(** X1: the normalized depth always lies in [0, 1] and never decreases when
    the depth grows. *)
Theorem normalized_depth_monotone (d1 d2 : Q) :
  d1 <= d2 ->
  0 <= normalized_depth d1 /\
  normalized_depth d1 <= normalized_depth d2 /\
  normalized_depth d2 <= 1.
Proof.
  intros H.
  destruct (normalized_depth_range d1) as [H1 _].
  destruct (normalized_depth_range d2) as [_ H2].
  split; [ exact H1 | split; [ | exact H2 ] ].
  apply normalized_depth_le, H.
Qed.

Lemma normalized_depth_monotone_witness :
  1 <= 2 /\
  0 <= normalized_depth 1 /\
  normalized_depth 1 <= normalized_depth 2 /\
  normalized_depth 2 <= 1.
Proof.
  assert (H : 1 <= 2) by (unfold Qle; simpl; lia).
  split; [ exact H | exact (normalized_depth_monotone 1 2 H) ].
Defined.



(** X3: whatever the depth, red stays within [-1/50, 1], green within
    [0, 1] and blue within [0, 1 + 1/50]. *)
Theorem depth_color_channel_ranges (depth : Q) :
  (- (1 # 50) <= red (depth_color depth) <= 1) /\
  (0 <= green (depth_color depth) <= 1) /\
  (0 <= blue (depth_color depth) <= 1 + (1 # 50)).
Proof.
  unfold depth_color.
  destruct (normalized_depth_range depth) as [Hlo Hhi].
  generalize dependent (normalized_depth depth). intros nd Hlo Hhi.
  unfold gradient.
  destruct (Qlt_le_dec nd 0.33);
    [ | destruct (Qlt_le_dec nd 0.67) ]; simpl; repeat split; lra.
Qed.

(** X4: the green channel rises with the depth up to 6.865 m (normalized
    depth 0.67) and falls with it from there on. *)
Theorem green_rises_then_falls (d1 d2 : Q) :
  d1 <= d2 ->
  (d2 < 6865 # 1000 -> green (depth_color d1) <= green (depth_color d2)) /\
  (6865 # 1000 <= d1 -> green (depth_color d2) <= green (depth_color d1)).
Proof.
  intros H. unfold depth_color.
  assert (Hmono := normalized_depth_le d1 d2 H).
  destruct (normalized_depth_range d1) as [H0 _].
  destruct (normalized_depth_range d2) as [_ H1].
  assert (C1 := normalized_depth_cases d1).
  assert (C2 := normalized_depth_cases d2).
  unfold min_depth, max_depth in C1, C2.
  generalize dependent (normalized_depth d2).
  generalize dependent (normalized_depth d1).
  intros n1 H0 C1 n2 Hmono H1 C2.
  unfold gradient.
  split; intros Hd;
    destruct (Qlt_le_dec n1 0.33), (Qlt_le_dec n1 0.67),
      (Qlt_le_dec n2 0.33), (Qlt_le_dec n2 0.67);
    simpl; lra.
Qed.

Lemma green_rises_then_falls_witness :
  1 <= 2 /\
  (2 < 6865 # 1000 -> green (depth_color 1) <= green (depth_color 2)) /\
  (6865 # 1000 <= 1 -> green (depth_color 2) <= green (depth_color 1)).
Proof.
  assert (H : 1 <= 2) by (unfold Qle; simpl; lia).
  split; [ exact H | exact (green_rises_then_falls 1 2 H) ].
Defined.

End ShaderShape.

(* ================================================================= *)
(** * Further properties of the string operations *)

Section TextFacts.

Import Py Observe.
Local Open Scope string_scope.


Lemma count_char_app (c : ascii) (s t : string) :
  count_char c (s ++ t) = (count_char c s + count_char c t)%nat.
Proof.
  induction s as [ | a s IH ]; [ reflexivity | ]. simpl.
  destruct (Ascii.eqb a c); rewrite IH; reflexivity.
Qed.

Lemma remove_char_app (c : ascii) (s t : string) :
  remove_char c (s ++ t) = remove_char c s ++ remove_char c t.
Proof.
  induction s as [ | a s IH ]; [ reflexivity | ]. simpl.
  destruct (Ascii.eqb a c); rewrite IH; reflexivity.
Qed.

Lemma remove_char_absent (c : ascii) (s : string) :
  count_char c s = O -> remove_char c s = s.
Proof.
  induction s as [ | a s IH ]; [ reflexivity | ]. simpl.
  destruct (Ascii.eqb a c); [ discriminate | ].
  intros H. rewrite (IH H). reflexivity.
Qed.


(** A character that fails [p] does not occur in a string all of whose
    characters pass it. *)
Lemma all_chars_absent (p : ascii -> bool) (c : ascii) (s : string) :
  all_chars p s = true -> p c = false -> count_char c s = O.
Proof.
  intros Hs Hc. induction s as [ | a s IH ]; [ reflexivity | ].
  simpl in Hs. apply andb_prop in Hs as [Ha Hs]. simpl.
  destruct (Ascii.eqb a c) eqn:E; [ | exact (IH Hs) ].
  apply Ascii.eqb_eq in E. congruence.
Qed.


(** [split] cuts at every separator: one more piece than separators. *)
Lemma split_length (sep : ascii) (s : string) :
  List.length (split sep s) = S (count_char sep s).
Proof.
  induction s as [ | a s IH ]; [ reflexivity | ]. simpl.
  destruct (Ascii.eqb a sep); simpl; [ rewrite IH; reflexivity | ].
  destruct (split sep s); simpl in *; [ discriminate IH | exact IH ].
Qed.

Lemma split_absent (sep : ascii) (s : string) :
  count_char sep s = O -> split sep s = [s].
Proof.
  induction s as [ | a s IH ]; [ reflexivity | ]. simpl.
  destruct (Ascii.eqb a sep); [ discriminate | ].
  intros H. rewrite (IH H). reflexivity.
Qed.

Lemma split_first (sep : ascii) (s t : string) :
  count_char sep s = O ->
  split sep (s ++ String sep t) = s :: split sep t.
Proof.
  induction s as [ | a s IH ]; simpl.
  - intros _. rewrite Ascii.eqb_refl. reflexivity.
  - destruct (Ascii.eqb a sep); [ discriminate | ].
    intros H. rewrite (IH H). reflexivity.
Qed.

End TextFacts.

(* ================================================================= *)
(** * Further properties of [parse_args] *)

Section ArgsShape.

Import Py Sdk Eff Args Observe.
Local Open Scope string_scope.
Local Open Scope bool_scope.
Local Open Scope eff_scope.

Lemma svo_unusable (svo : string) :
  endswith svo ".svo" = false ->
  (0 <? len svo)%Z && endswith svo ".svo" = false.
Proof. intros H. rewrite H. apply andb_false_r. Qed.


Lemma isdigit_not_empty (s : string) : isdigit s = true -> s <> "".
Proof. intros H E. subst s. discriminate H. Qed.

Lemma colon_not_digit_or_dot :
  (fun a => is_digit_char a || Ascii.eqb a ".") ":"%char = false.
Proof. reflexivity. Qed.

Lemma digits_no_colon (s : string) :
  all_digits s = true -> count_char ":" s = O.
Proof. intros H. apply (all_chars_absent is_digit_char); [ exact H | reflexivity ]. Qed.


Lemma digits_or_dots_no_colon (s : string) :
  digits_or_dots s = true -> count_char ":" s = O.
Proof.
  intros H.
  apply (all_chars_absent (fun a => is_digit_char a || Ascii.eqb a "."));
    [ exact H | reflexivity ].
Qed.

(** What the three tests of the address see of [host ++ ":" ++ port]. *)
Lemma host_port_split (host port : string) :
  digits_or_dots host = true ->
  digits_or_dots port = true ->
  split ":" (host ++ ":" ++ port) = [host; port] /\
  remove_char "." (remove_char ":" (host ++ ":" ++ port))
    = remove_char "." (host ++ port) /\
  List.length (split "." (host ++ ":" ++ port))
    = S (count_char "." host + count_char "." port).
Proof.
  intros Hh Hp.
  assert (Ch := digits_or_dots_no_colon host Hh).
  assert (Cp := digits_or_dots_no_colon port Hp).
  change (host ++ ":" ++ port) with (host ++ String ":" port).
  split; [ | split ].
  - rewrite (split_first ":" host port Ch), (split_absent ":" port Cp).
    reflexivity.
  - rewrite remove_char_app. simpl.
    rewrite (remove_char_absent ":" host Ch), (remove_char_absent ":" port Cp).
    reflexivity.
  - rewrite split_length, count_char_app. reflexivity.
Qed.

Lemma parse_args_after_input (init init1 : InitParameters) (opt : Options)
    (log : list event) :
  input_block init opt = (log, Returned init1) ->
  exists msg init',
    parse_args init opt = ((log ++ [Print msg newline])%list, Returned init') /\
    camera_resolution init' =
      resolution_of (resolution opt) (camera_resolution init1) /\
    input init' = input init1.
Proof.
  intros E. rewrite parse_args_blocks, E, bind_returned.
  destruct (resolution_block_returns init1 opt) as (msg & init' & E2 & R & I).
  rewrite E2. exists msg, init'. repeat split; assumption.
Qed.

(** X7: a path ending in [.svo] selects the recorded file, whatever the
    address argument holds: [set_from_svo_file] is called with the path, the
    choice and the resolution are each printed, and nothing else happens. *)
Theorem parse_args_svo_file (init : InitParameters) (opt : Options) :
  (exists stem, input_svo_file opt = stem ++ ".svo") ->
  exists msg init',
    parse_args init opt =
      ([SetFromSvoFile (input_svo_file opt);
        Print ("[Sample] Using SVO File input: " ++ input_svo_file opt) newline;
        Print msg newline],
       Returned init') /\
    input init' = SVO_FILE (input_svo_file opt) /\
    camera_resolution init' =
      resolution_of (resolution opt) (camera_resolution init).
Proof.
  intros Hsvo.
  assert (Hends : endswith (input_svo_file opt) ".svo" = true)
    by (apply endswith_iff; exact Hsvo).
  assert (Hlen : (0 <? len (input_svo_file opt))%Z = true).
  { apply len_pos_iff. destruct Hsvo as [stem ->].
    destruct stem; discriminate. }
  assert (E : input_block init opt =
              ([SetFromSvoFile (input_svo_file opt);
                Print ("[Sample] Using SVO File input: " ++ input_svo_file opt)
                      newline],
               Returned (set_input (SVO_FILE (input_svo_file opt)) init))).
  { unfold input_block. rewrite Hlen, Hends. reflexivity. }
  destruct (parse_args_after_input init _ opt _ E) as (msg & init' & P & R & I).
  exists msg, init'. split; [ exact P | split; [ exact I | exact R ] ].
Qed.

Lemma parse_args_svo_file_witness :
  let opt := {| input_svo_file := "walk.svo"; ip_address := "10.0.0.7";
                resolution := "HD1080" |} in
  let init := Loop.init_parameters AUTO in
  exists msg init',
    parse_args init opt =
      ([SetFromSvoFile "walk.svo";
        Print "[Sample] Using SVO File input: walk.svo" newline;
        Print msg newline],
       Returned init') /\
    input init' = SVO_FILE "walk.svo" /\
    camera_resolution init' = HD1080.
Proof.
  intros opt init.
  apply (parse_args_svo_file init opt). exists "walk". reflexivity.
Defined.



(** X9: an address that is digits once dots and colons are dropped, has
    exactly three dots and does not have exactly one colon is passed whole
    to [set_from_stream], without a port. *)
Theorem parse_args_stream_without_port
    (init : InitParameters) (opt : Options) :
  endswith (input_svo_file opt) ".svo" = false ->
  ip_digits_only (ip_address opt) = true ->
  count_char "." (ip_address opt) = 3%nat ->
  count_char ":" (ip_address opt) <> 1%nat ->
  exists msg init',
    parse_args init opt =
      ([SetFromStream (ip_address opt) None;
        Print ("[Sample] Using Stream input, IP: " ++ " " ++ ip_address opt)
              newline;
        Print msg newline],
       Returned init') /\
    input init' = STREAM (ip_address opt) None.
Proof.
  intros Hsvo Hdigits Hdots Hcolons.
  assert (E : input_block init opt =
              ([SetFromStream (ip_address opt) None;
                Print ("[Sample] Using Stream input, IP: " ++ " "
                       ++ ip_address opt) newline],
               Returned (set_input (STREAM (ip_address opt) None) init))).
  { unfold input_block. rewrite (svo_unusable _ Hsvo). cbn zeta.
    assert (Hne : (0 <? len (ip_address opt))%Z = true).
    { apply len_pos_iff. intros E. rewrite E in Hdigits. discriminate Hdigits. }
    rewrite Hne, Hdigits, !split_length, Hdots.
    assert (Hc : (Z.of_nat (S (count_char ":" (ip_address opt))) =? 2)%Z
                 = false) by (apply Z.eqb_neq; lia).
    rewrite Hc. reflexivity. }
  destruct (parse_args_after_input init _ opt _ E) as (msg & init' & P & _ & I).
  exists msg, init'. split; [ exact P | exact I ].
Qed.

Lemma parse_args_stream_without_port_witness :
  let opt := {| input_svo_file := ""; ip_address := "192.168.1.20";
                resolution := "" |} in
  let init := Loop.init_parameters AUTO in
  exists msg init',
    parse_args init opt =
      ([SetFromStream "192.168.1.20" None;
        Print "[Sample] Using Stream input, IP:  192.168.1.20" newline;
        Print msg newline],
       Returned init') /\
    input init' = STREAM "192.168.1.20" None.
Proof.
  intros opt init.
  apply (parse_args_stream_without_port init opt);
    [ reflexivity | reflexivity | reflexivity | simpl; discriminate ].
Defined.



(** X11: an address [host:port] of digits and dots, three dots in all and
    at least one digit, whose [port] is empty or holds a dot, passes the
    format test and then makes [int] raise: [parse_args] ends with
    [ValueError], having printed and configured nothing. *)
Theorem parse_args_port_not_a_number
    (init : InitParameters) (opt : Options) (host port : string) :
  endswith (input_svo_file opt) ".svo" = false ->
  ip_address opt = host ++ ":" ++ port ->
  digits_or_dots host = true ->
  digits_or_dots port = true ->
  (count_char "." host + count_char "." port)%nat = 3%nat ->
  isdigit (remove_char "." (host ++ port)) = true ->
  isdigit port = false ->
  parse_args init opt = ([], Raised ValueError).
Proof.
  intros Hsvo Hip Hhost Hport Hdots Hdigit Hbad.
  destruct (host_port_split host port Hhost Hport) as (Hsplit & Hremove & Hlen).
  apply parse_args_raises. unfold stream_port_bad.
  rewrite (svo_unusable _ Hsvo), Hip.
  assert (Hne : (0 <? len (host ++ ":" ++ port))%Z = true)
    by (apply len_pos_iff; destruct host; discriminate).
  rewrite Hne. unfold ip_digits_only.
  rewrite Hremove, Hdigit, Hlen, Hsplit, Hdots.
  cbn [List.length nth]. rewrite Hbad. reflexivity.
Qed.

Lemma parse_args_port_not_a_number_witness :
  let opt := {| input_svo_file := ""; ip_address := "10.0.7:80.1";
                resolution := "HD2K" |} in
  parse_args (Loop.init_parameters AUTO) opt = ([], Raised ValueError).
Proof.
  intros opt.
  exact (parse_args_port_not_a_number (Loop.init_parameters AUTO) opt
           "10.0.7" "80.1"
           eq_refl eq_refl eq_refl eq_refl eq_refl eq_refl eq_refl).
Defined.


Lemma resolution_block_keeps_settings (init : InitParameters) (opt : Options) :
  exists msg init',
    resolution_block init opt = ([Print msg newline], Returned init') /\
    camera_resolution init' =
      resolution_of (resolution opt) (camera_resolution init) /\
    depth_mode init' = depth_mode init /\
    coordinate_units init' = coordinate_units init /\
    coordinate_system init' = coordinate_system init /\
    depth_minimum_distance init' = depth_minimum_distance init /\
    depth_maximum_distance init' = depth_maximum_distance init.
Proof.
  unfold resolution_block, resolution_of.
  cbn [List.find resolution_table fst].
  repeat match goal with
         | |- context [if ?b then _ else _] => destruct b
         end;
    eexists; eexists; repeat split; reflexivity.
Qed.







End ArgsShape.

(* ================================================================= *)
(** * Further properties of the poll loop and of [main] *)

Section RunFacts.

Import Py Sdk Eff Args Loop Observe.
Local Open Scope string_scope.
Local Open Scope bool_scope.
Local Open Scope Z_scope.
Local Open Scope eff_scope.

Ltac pass_cases st f :=
  destruct st as [rec fc], f as [g sd k ts ss tr rs];
  unfold loop_body, next_state, pressed, idle in *;
  cbn [grab_status save_data key_pressed save_status record_status
       save_timestamp record_timestamp recording_enabled frame_count] in *.

Lemma trace_run_loop_cons (st : LoopState) (f : Frame) (fs : list Frame) :
  trace (run_loop st (f :: fs)) =
  (IsAvailable true :: trace (loop_body st f)
     ++ trace (run_loop (next_state st f) fs))%list.
Proof. rewrite run_loop_cons. reflexivity. Qed.

Lemma result_run_loop_cons (st : LoopState) (f : Frame) (fs : list Frame) :
  result (run_loop st (f :: fs)) = result (run_loop (next_state st f) fs).
Proof. rewrite run_loop_cons. reflexivity. Qed.

(** The loop returns for every finite run, its last act being the poll that
    found the viewer closed. *)
Lemma run_loop_ends (fs : list Frame) (st : LoopState) :
  exists body st',
    run_loop st fs = ((body ++ [IsAvailable false])%list, Returned st').
Proof.
  revert st. induction fs as [ | f fs IH ]; intros st.
  - exists [], st. reflexivity.
  - destruct (IH (next_state st f)) as (body & st' & E).
    rewrite run_loop_cons, E. unfold trace, result. cbn [fst snd].
    exists (IsAvailable true :: trace (loop_body st f) ++ body)%list, st'.
    simpl. rewrite <- app_assoc. reflexivity.
Qed.

(** The files one pass writes are named after its two clock readings. *)
Lemma loop_body_writes (st : LoopState) (f : Frame)
    (name : string) (status : ERROR_CODE) :
  In (WriteFile name status) (trace (loop_body st f)) ->
  name = pointcloud_filename (save_timestamp f) \/
  name = pointcloud_filename (record_timestamp f).
Proof.
  pass_cases st f.
  destruct g, sd, ss, (is_r_key k), rec, rs; simpl;
    intuition (try discriminate; congruence).
Qed.

Lemma successful_writes_app (a b : list event) :
  successful_writes (a ++ b) = successful_writes a + successful_writes b.
Proof.
  induction a as [ | ev a IH ]; [ reflexivity | ].
  destruct ev; cbn [successful_writes app]; try exact IH.
  match goal with s : ERROR_CODE |- _ => destruct s end;
    cbn [successful_writes app]; rewrite IH; lia.
Qed.

Lemma loop_body_count (st : LoopState) (f : Frame) :
  0 <= frame_count st ->
  frame_count (next_state st f)
    <= frame_count st + successful_writes (trace (loop_body st f)).
Proof.
  pass_cases st f. intros H.
  destruct g, sd, ss, (is_r_key k), rec, rs; cbn; lia.
Qed.

(** X15: while the user asks for nothing (no save request, no [r] key) and
    recording is off, the loop writes no file and leaves the flag and the
    counter as they were, however many frames go by. *)
Theorem idle_run_writes_nothing (st : LoopState) (fs : list Frame) :
  recording_enabled st = false ->
  Forall (fun f => idle f = true) fs ->
  result (run_loop st fs) = Returned st /\
  forall name status, ~ In (WriteFile name status) (trace (run_loop st fs)).
Proof.
  intros Hoff Hidle. induction Hidle as [ | f fs Hf _ IH ].
  - split; [ reflexivity | ]. intros name status Hin.
    simpl in Hin. intuition discriminate.
  - assert (Hnext : next_state st f = st).
    { clear IH. pass_cases st f. subst rec.
      apply andb_prop in Hf as [_ Hk]. apply negb_true_iff in Hk.
      rewrite Hk, !andb_false_r. reflexivity. }
    rewrite result_run_loop_cons, trace_run_loop_cons, Hnext.
    destruct IH as [IHr IHt]. split; [ exact IHr | ].
    intros name status [Hin | Hin]; [ discriminate Hin | ].
    apply in_app_or in Hin as [Hin | Hin]; [ | exact (IHt name status Hin) ].
    clear IHr IHt Hnext. revert Hin. pass_cases st f. subst rec.
    apply andb_prop in Hf as [Hs Hk].
    apply negb_true_iff in Hs. apply negb_true_iff in Hk. subst sd.
    rewrite Hk. destruct g; simpl; intuition discriminate.
Qed.

Lemma idle_run_writes_nothing_witness :
  let f := {| grab_status := SUCCESS; save_data := false;
              key_pressed := Some 0;
              save_timestamp := "20250101_120000";
              save_status := SUCCESS;
              record_timestamp := "20250101_120000_000001";
              record_status := SUCCESS |} in
  result (run_loop initial_state [f; f]) = Returned initial_state /\
  forall name status,
    ~ In (WriteFile name status) (trace (run_loop initial_state [f; f])).
Proof.
  intros f. apply (idle_run_writes_nothing initial_state [f; f]).
  - reflexivity.
  - repeat constructor.
Defined.

(** X16: after any run the recording flag is the starting flag, flipped
    once for every grabbed frame during which the viewer reported the [r]
    key: started off, recording is on exactly when that number is odd. *)
Theorem recording_flag_parity (st : LoopState) (fs : list Frame) :
  exists st',
    result (run_loop st fs) = Returned st' /\
    recording_enabled st' =
      xorb (recording_enabled st) (Nat.odd (toggles fs)).
Proof.
  revert st. induction fs as [ | f fs IH ]; intros st.
  - exists st. split; [ reflexivity | ]. simpl.
    rewrite xorb_false_r. reflexivity.
  - destruct (IH (next_state st f)) as (st' & E & R).
    exists st'. rewrite result_run_loop_cons. split; [ exact E | ].
    rewrite R. unfold toggles, next_state. cbn [filter recording_enabled].
    destruct (pressed f); cbn [List.length].
    + rewrite Nat.odd_succ, <- Nat.negb_odd.
      destruct (recording_enabled st), (Nat.odd (List.length (filter pressed fs)));
        reflexivity.
    + rewrite xorb_false_r. reflexivity.
Qed.

(** X17: every file the loop writes is named
    [point_clouds/pointcloud_<timestamp>.ply], the timestamp being one of the
    two clock readings of a frame of the run. *)
Theorem written_files_are_point_clouds
    (st : LoopState) (fs : list Frame) (name : string) (status : ERROR_CODE) :
  In (WriteFile name status) (trace (run_loop st fs)) ->
  exists f timestamp,
    In f fs /\
    (timestamp = save_timestamp f \/ timestamp = record_timestamp f) /\
    name = "point_clouds/pointcloud_" ++ timestamp ++ ".ply".
Proof.
  revert st. induction fs as [ | f fs IH ]; intros st Hin.
  - simpl in Hin. intuition discriminate.
  - rewrite trace_run_loop_cons in Hin.
    destruct Hin as [Hin | Hin]; [ discriminate Hin | ].
    apply in_app_or in Hin as [Hin | Hin].
    + apply loop_body_writes in Hin.
      destruct Hin as [-> | ->];
        [ exists f, (save_timestamp f) | exists f, (record_timestamp f) ];
        (split; [ left; reflexivity | ]);
        (split; [ auto | reflexivity ]).
    + destruct (IH _ Hin) as (f' & timestamp & Hf & Ht & Hn).
      exists f', timestamp. split; [ right; exact Hf | split; assumption ].
Qed.

Lemma written_files_are_point_clouds_witness :
  let f := {| grab_status := SUCCESS; save_data := true;
              key_pressed := None;
              save_timestamp := "20250101_120000";
              save_status := SUCCESS;
              record_timestamp := "20250101_120000_000001";
              record_status := SUCCESS |} in
  exists f' timestamp,
    In f' [f] /\
    (timestamp = save_timestamp f' \/ timestamp = record_timestamp f') /\
    "point_clouds/pointcloud_20250101_120000.ply"
      = "point_clouds/pointcloud_" ++ timestamp ++ ".ply".
Proof.
  intros f.
  apply (written_files_are_point_clouds initial_state [f]
           "point_clouds/pointcloud_20250101_120000.ply" SUCCESS).
  vm_compute. tauto.
Defined.

(** X18: frames that [zed.grab()] fails on are skipped whole: over a run
    of such frames the loop only polls the viewer and grabs, and the flag and
    the counter stay as they were. *)
Theorem failed_grabs_are_skipped (st : LoopState) (fs : list Frame) :
  Forall (fun f => is_success (grab_status f) = false) fs ->
  result (run_loop st fs) = Returned st /\
  Forall is_poll_event (trace (run_loop st fs)).
Proof.
  intros Hfail. induction Hfail as [ | f fs Hf _ IH ].
  - split; [ reflexivity | ]. repeat constructor.
  - assert (Hnext : next_state st f = st).
    { clear IH. pass_cases st f. rewrite Hf. simpl.
      rewrite xorb_false_r. reflexivity. }
    assert (Hpass : trace (loop_body st f) = [Grab (grab_status f)]).
    { clear IH Hnext. pass_cases st f. rewrite Hf. reflexivity. }
    rewrite result_run_loop_cons, trace_run_loop_cons, Hnext, Hpass.
    destruct IH as [IHr IHt]. split; [ exact IHr | ].
    constructor; [ exact I | ]. constructor; [ exact I | exact IHt ].
Qed.

Lemma failed_grabs_are_skipped_witness :
  let f := {| grab_status := FAILURE "CAMERA NOT STREAMING";
              save_data := true; key_pressed := Some 114;
              save_timestamp := "20250101_120000";
              save_status := SUCCESS;
              record_timestamp := "20250101_120000_000001";
              record_status := SUCCESS |} in
  result (run_loop initial_state [f; f]) = Returned initial_state /\
  Forall is_poll_event (trace (run_loop initial_state [f; f])).
Proof.
  intros f. apply (failed_grabs_are_skipped initial_state [f; f]).
  repeat constructor.
Defined.

(** X19: the counter never reports more frames than files were written:
    started from a non-negative count, the count after a run is at most the
    starting count plus the number of [write] calls of the run that returned
    [SUCCESS]. *)
Theorem frame_count_bounded_by_writes (st : LoopState) (fs : list Frame) :
  0 <= frame_count st ->
  exists st',
    result (run_loop st fs) = Returned st' /\
    0 <= frame_count st' /\
    frame_count st'
      <= frame_count st + successful_writes (trace (run_loop st fs)).
Proof.
  revert st. induction fs as [ | f fs IH ]; intros st H0.
  - exists st. split; [ reflexivity | ]. simpl. lia.
  - assert (H1 := next_state_nonneg st f H0).
    destruct (IH (next_state st f) H1) as (st' & E & Hpos & Hle).
    exists st'. rewrite result_run_loop_cons, trace_run_loop_cons.
    split; [ exact E | split; [ exact Hpos | ] ].
    cbn [successful_writes]. rewrite successful_writes_app.
    assert (Hpass := loop_body_count st f H0). lia.
Qed.

Lemma frame_count_bounded_by_writes_witness :
  let f := {| grab_status := SUCCESS; save_data := false;
              key_pressed := Some 114;
              save_timestamp := "20250101_120000";
              save_status := SUCCESS;
              record_timestamp := "20250101_120000_000001";
              record_status := SUCCESS |} in
  exists st',
    result (run_loop initial_state [f]) = Returned st' /\
    0 <= frame_count st' /\
    frame_count st'
      <= frame_count initial_state
         + successful_writes (trace (run_loop initial_state [f])).
Proof.
  intros f. apply (frame_count_bounded_by_writes initial_state [f]).
  simpl. lia.
Defined.

(** X13: once [parse_args] has returned and the camera has opened, [main]
    returns for every finite run of frames, and it ends by leaving the loop,
    closing the viewer, closing the camera and printing its last line, in
    that order; the camera was opened with the parameters [parse_args]
    returned. *)
Theorem main_closes_after_loop (w : World) (opt : Options)
    (log : list event) (init' : InitParameters) :
  parse_args (init_parameters (default_resolution w)) opt
    = (log, Returned init') ->
  open_status w = SUCCESS ->
  exists before,
    main w opt =
      ((before ++ [IsAvailable false; ViewerExit; CameraClose;
                   Print (newline ++ "Application closed") newline])%list,
       Returned tt) /\
    In (CameraOpen init') before.
Proof.
  intros Hparse Hopen.
  destruct (run_loop_ends (frames w) initial_state) as (body & st' & Hloop).
  unfold main. rewrite Hparse, Hopen, Hloop.
  exists (trace ((if negb (dir_exists w) then emit (MakeDirs save_dir)
                  else ret tt) ;; banner)
          ++ log ++ CameraOpen init' :: SetupViewer :: body)%list.
  split.
  - destruct (dir_exists w); cbn; rewrite <- !app_assoc; reflexivity.
  - apply in_or_app. right. apply in_or_app. right. left. reflexivity.
Qed.

Lemma main_closes_after_loop_witness :
  let w := {| dir_exists := true; default_resolution := AUTO;
              open_status := SUCCESS; frames := [] |} in
  let opt := {| input_svo_file := ""; ip_address := "";
                resolution := "HD720" |} in
  let init' := set_camera_resolution HD720 (init_parameters AUTO) in
  exists before,
    main w opt =
      ((before ++ [IsAvailable false; ViewerExit; CameraClose;
                   Print (newline ++ "Application closed") newline])%list,
       Returned tt) /\
    In (CameraOpen init') before.
Proof.
  intros w opt init'.
  exact (main_closes_after_loop w opt
           [Print "[Sample] Using Camera in resolution HD720" newline]
           init' eq_refl eq_refl).
Defined.

(** X14: an address whose port text [int] rejects ends [main] with
    [ValueError] right after the banner: the output directory has been
    created if it was missing, and the camera is never opened. *)
Theorem main_stops_on_bad_port (w : World) (opt : Options) :
  stream_port_bad opt = true ->
  main w opt =
    (trace ((if negb (dir_exists w) then emit (MakeDirs save_dir) else ret tt)
            ;; banner),
     Raised ValueError) /\
  (dir_exists w = false -> In (MakeDirs save_dir) (trace (main w opt))) /\
  (forall init, ~ In (CameraOpen init) (trace (main w opt))).
Proof.
  intros Hbad.
  assert (E : main w opt =
    (trace ((if negb (dir_exists w) then emit (MakeDirs save_dir) else ret tt)
            ;; banner),
     Raised ValueError)).
  { unfold main.
    rewrite (parse_args_raises (init_parameters (default_resolution w))
               opt Hbad).
    destruct (dir_exists w); reflexivity. }
  rewrite E. split; [ reflexivity | split ].
  - intros Hdir. rewrite Hdir. left. reflexivity.
  - intros init. destruct (dir_exists w); simpl; intuition discriminate.
Qed.

Lemma main_stops_on_bad_port_witness :
  let w := {| dir_exists := false; default_resolution := AUTO;
              open_status := SUCCESS; frames := [] |} in
  let opt := {| input_svo_file := ""; ip_address := "10.0.0.7:";
                resolution := "" |} in
  main w opt =
    (trace ((if negb (dir_exists w) then emit (MakeDirs save_dir) else ret tt)
            ;; banner),
     Raised ValueError) /\
  (dir_exists w = false -> In (MakeDirs save_dir) (trace (main w opt))) /\
  (forall init, ~ In (CameraOpen init) (trace (main w opt))).
Proof.
  intros w opt. exact (main_stops_on_bad_port w opt eq_refl).
Defined.

(** X20: started with neither a recording nor an address, the script opens
    the wired camera, with the resolution the table gives for
    [--resolution] (the SDK's own when it names none), depth mode ULTRA,
    metres, and the depth range 0.3 to 15.0. *)
Theorem script_default_opens_wired_camera (w : World) (opt : Options) :
  input_svo_file opt = "" ->
  ip_address opt = "" ->
  exists init',
    In (CameraOpen init') (trace (script w opt)) /\
    input init' = LIVE /\
    camera_resolution init' =
      resolution_of (resolution opt) (default_resolution w) /\
    depth_mode init' = ULTRA /\
    coordinate_units init' = METER /\
    depth_minimum_distance init' = 0.3%Q /\
    depth_maximum_distance init' = 15.0%Q.
Proof.
  intros Hsvo Hip.
  assert (Hscript : script w opt = main w opt).
  { unfold script. rewrite Hsvo. unfold ret.
    destruct (main w opt) as [l [[] | e]]; reflexivity. }
  assert (E1 : input_block (init_parameters (default_resolution w)) opt
               = ([], Returned (init_parameters (default_resolution w)))).
  { unfold input_block. rewrite Hsvo, Hip. reflexivity. }
  destruct (resolution_block_keeps_settings
              (init_parameters (default_resolution w)) opt)
    as (msg & init' & E2 & R & M & U & _ & Dmin & Dmax).
  destruct (resolution_block_returns
              (init_parameters (default_resolution w)) opt)
    as (msg' & init'' & E2' & _ & I).
  rewrite E2 in E2'. injection E2' as <- <-.
  exists init'. rewrite Hscript.
  split; [ | repeat split; assumption ].
  unfold main. rewrite parse_args_blocks, E1, bind_returned, E2.
  unfold trace at 2, result. cbn [fst snd app].
  destruct (dir_exists w), (open_status w);
    destruct (run_loop initial_state (frames w)) as [l [st | e]];
    cbn; tauto.
Qed.

Lemma script_default_opens_wired_camera_witness :
  let w := {| dir_exists := true; default_resolution := AUTO;
              open_status := SUCCESS; frames := [] |} in
  let opt := {| input_svo_file := ""; ip_address := "";
                resolution := "" |} in
  exists init',
    In (CameraOpen init') (trace (script w opt)) /\
    input init' = LIVE /\
    camera_resolution init' = AUTO /\
    depth_mode init' = ULTRA /\
    coordinate_units init' = METER /\
    depth_minimum_distance init' = 0.3%Q /\
    depth_maximum_distance init' = 15.0%Q.
Proof.
  intros w opt.
  exact (script_default_opens_wired_camera w opt eq_refl eq_refl).
Defined.

(** X21: pressing [r] while recording is on stops it in that very pass:
    the line with the number of saved frames shows the counter, the key is
    reset, the flag goes off with the counter untouched, and the only file
    that pass can still write is a one-shot save that was asked for. *)
Theorem recording_stops_at_once (st : LoopState) (f : Frame) :
  grab_status f = SUCCESS ->
  is_r_key (key_pressed f) = true ->
  recording_enabled st = true ->
  result (loop_body st f) =
    Returned {| recording_enabled := false; frame_count := frame_count st |} /\
  In (Print ("Continuous recording DISABLED. Saved "
             ++ str_of_int (frame_count st) ++ " frames.") newline)
     (trace (loop_body st f)) /\
  In (SetKeyPressed 0) (trace (loop_body st f)) /\
  (forall name status,
      In (WriteFile name status) (trace (loop_body st f)) ->
      save_data f = true /\
      name = pointcloud_filename (save_timestamp f) /\
      status = save_status f).
Proof.
  intros Hg Hk Hrec. pass_cases st f. subst g rec. rewrite Hk.
  destruct sd, ss; cbn; repeat split;
    try tauto; intuition (try discriminate; congruence).
Qed.

Lemma recording_stops_at_once_witness :
  let st := {| recording_enabled := true; frame_count := 7 |} in
  let f := {| grab_status := SUCCESS; save_data := false;
              key_pressed := Some 114;
              save_timestamp := "20250101_120000";
              save_status := SUCCESS;
              record_timestamp := "20250101_120000_000001";
              record_status := SUCCESS |} in
  result (loop_body st f) =
    Returned {| recording_enabled := false; frame_count := 7 |} /\
  In (Print "Continuous recording DISABLED. Saved 7 frames." newline)
     (trace (loop_body st f)) /\
  In (SetKeyPressed 0) (trace (loop_body st f)) /\
  (forall name status,
      In (WriteFile name status) (trace (loop_body st f)) ->
      save_data f = true /\
      name = pointcloud_filename (save_timestamp f) /\
      status = save_status f).
Proof.
  intros st f.
  exact (recording_stops_at_once st f eq_refl eq_refl eq_refl).
Defined.

(** X22: a save request on a grabbed frame is served in that pass, from a
    full-resolution retrieve, into the file named after the clock reading,
    and the request is cleared whether the write succeeded or not: a failed
    save is not tried again. *)
Theorem save_request_served_once (st : LoopState) (f : Frame) :
  grab_status f = SUCCESS ->
  save_data f = true ->
  exists before after,
    trace (loop_body st f) =
      (before
       ++ [RetrieveMeasure true;
           WriteFile (pointcloud_filename (save_timestamp f)) (save_status f);
           Print (if is_success (save_status f)
                  then "Point cloud saved to: "
                       ++ pointcloud_filename (save_timestamp f)
                  else "Failed to save point cloud: "
                       ++ str_of_error (save_status f)) newline;
           SetSaveData false]
       ++ after)%list /\
    before = [Grab SUCCESS; RetrieveMeasure false; UpdateData] /\
    forall v, ~ In (SetSaveData v) after.
Proof.
  intros Hg Hs. pass_cases st f. subst g sd.
  exists [Grab SUCCESS; RetrieveMeasure false; UpdateData].
  destruct ss, (is_r_key k), rec, rs; cbn;
    eexists; (split; [ reflexivity | split; [ reflexivity | ] ]);
    intros v; simpl; intuition discriminate.
Qed.

Lemma save_request_served_once_witness :
  let f := {| grab_status := SUCCESS; save_data := true;
              key_pressed := None;
              save_timestamp := "20250101_120000";
              save_status := FAILURE "FAILURE";
              record_timestamp := "20250101_120000_000001";
              record_status := SUCCESS |} in
  exists before after,
    trace (loop_body initial_state f) =
      (before
       ++ [RetrieveMeasure true;
           WriteFile "point_clouds/pointcloud_20250101_120000.ply"
                     (FAILURE "FAILURE");
           Print "Failed to save point cloud: FAILURE" newline;
           SetSaveData false]
       ++ after)%list /\
    before = [Grab SUCCESS; RetrieveMeasure false; UpdateData] /\
    forall v, ~ In (SetSaveData v) after.
Proof.
  intros f.
  exact (save_request_served_once initial_state f eq_refl eq_refl).
Defined.

End RunFacts.

